(** * The lgtm plugin of prow: command recognition, authorization and
      label reconciliation

    Shallow embedding of [prow/plugins/lgtm/lgtm.go].  The two regular
    expressions are embedded as syntax trees interpreted by a small
    backtracking matcher that follows RE2's semantics for the operators
    they use; the two handlers are embedded as programs over the calls of
    the client interfaces, run against an arbitrary client. *)

From Stdlib Require Import String Ascii List ZArith Bool Lia.
From stdpp Require Import base gmap strings.
Import ListNotations.

Set Default Proof Using "Type".
Local Open Scope list_scope.

(** ** Regular expressions (the fragment of Go's [regexp] the plugin uses) *)

Module Regexp.

(** The text is the byte sequence of a Go string. *)
Abbreviation text := (list ascii).

Definition newline : ascii := "010"%char.

(** RE2's [\s] is the class [[\t\n\f\r ]]. *)
Definition is_space (c : ascii) : bool :=
  Ascii.eqb c "009" || Ascii.eqb c "010" || Ascii.eqb c "012"
  || Ascii.eqb c "013" || Ascii.eqb c " ".

Definition is_lower (c : ascii) : bool :=
  (N.leb 97 (N_of_ascii c) && N.leb (N_of_ascii c) 122)%N.

Definition is_upper (c : ascii) : bool :=
  (N.leb 65 (N_of_ascii c) && N.leb (N_of_ascii c) 90)%N.

Definition to_lower (c : ascii) : ascii :=
  if is_upper c then ascii_of_N (N_of_ascii c + 32) else c.

Definition to_upper (c : ascii) : ascii :=
  if is_lower c then ascii_of_N (N_of_ascii c - 32) else c.

(** Under the [i] flag a literal matches every rune of its orbit under
    [unicode.SimpleFold].  For an ASCII letter the orbit is the letter in
    both cases, and for [k] and [s] one more rune each: U+212A (KELVIN
    SIGN) and U+017F (LATIN SMALL LETTER LONG S).  The runes are given by
    their UTF-8 encodings, since the text is a byte sequence. *)
Definition fold_orbit (c : ascii) : list text :=
  if is_lower c || is_upper c then
    [ [to_lower c]; [to_upper c] ]
    ++ (if Ascii.eqb (to_lower c) "k" then [ ["226"; "132"; "170"]%char ] else [])
    ++ (if Ascii.eqb (to_lower c) "s" then [ ["197"; "191"]%char ] else [])
  else [ [c] ].

(** Syntax, named after the operators of [regexp/syntax]. *)
Inductive Regexp : Type :=
| Literal (fold : bool) (c : ascii)   (* a literal; [fold] is the [i] flag *)
| CharClass (cls : ascii -> bool)     (* a class of single-byte runes *)
| StarClass (cls : ascii -> bool)     (* [cls*] *)
| Quest (r : Regexp)                  (* [r?] *)
| Concat (r1 r2 : Regexp)
| EmptyMatch                          (* matches the empty string *)
| BeginLine                           (* [^] under the [m] flag *)
| EndLine.                            (* [$] under the [m] flag *)

(** A cursor in the text: the bytes before it (nearest first) and the
    bytes after it. *)
Abbreviation cursor := (list ascii * list ascii)%type.

Definition at_bol (p : cursor) : bool :=
  match fst p with
  | [] => true
  | c :: _ => Ascii.eqb c newline
  end.

Definition at_eol (p : cursor) : bool :=
  match snd p with
  | [] => true
  | c :: _ => Ascii.eqb c newline
  end.

Fixpoint is_prefix (m s : text) : bool :=
  match m, s with
  | [], _ => true
  | a :: m', b :: s' => Ascii.eqb a b && is_prefix m' s'
  | _ :: _, [] => false
  end.

(** Advance the cursor over [m] when the text after it starts with [m]. *)
Definition advance (p : cursor) (m : text) : list cursor :=
  if is_prefix m (snd p)
  then [ (rev m ++ fst p, skipn (length m) (snd p)) ]
  else [].

(** All cursors reachable by consuming zero or more bytes of the class,
    longest first (the operator is greedy). *)
Fixpoint star_class (cls : ascii -> bool) (pre post : text) : list cursor :=
  match post with
  | c :: post' =>
      if cls c then star_class cls (c :: pre) post' ++ [ (pre, post) ]
      else [ (pre, post) ]
  | [] => [ (pre, post) ]
  end.

(** [ends r p]: every cursor at which a match of [r] started at [p] can
    end, in the order a backtracking matcher tries them. *)
Fixpoint ends (r : Regexp) (p : cursor) : list cursor :=
  match r with
  | Literal fold c =>
      flat_map (advance p) (if fold then fold_orbit c else [ [c] ])
  | CharClass cls =>
      match snd p with
      | c :: post' => if cls c then [ (c :: fst p, post') ] else []
      | [] => []
      end
  | StarClass cls => star_class cls (fst p) (snd p)
  | Quest r' => ends r' p ++ [ p ]
  | Concat r1 r2 => flat_map (ends r2) (ends r1 p)
  | EmptyMatch => [ p ]
  | BeginLine => if at_bol p then [ p ] else []
  | EndLine => if at_eol p then [ p ] else []
  end.

(** Every cursor of the text, left to right.  Go's matcher moves rune by
    rune; the patterns of the plugin start with [^], and in UTF-8 a
    newline byte is a rune of its own, so the cursors where they can
    match are the same byte by byte. *)
Fixpoint cursors (pre post : text) : list cursor :=
  (pre, post) ::
  match post with
  | [] => []
  | c :: post' => cursors (c :: pre) post'
  end.

Definition matches_at (re : Regexp) (p : cursor) : bool :=
  match ends re p with
  | [] => false
  | _ :: _ => true
  end.

Definition match_text (re : Regexp) (t : text) : bool :=
  existsb (matches_at re) (cursors [] t).

(** The method [MatchString] of a compiled expression: is there a match
    anywhere in the string. *)
Definition MatchString (re : Regexp) (s : string) : bool :=
  match_text re (list_ascii_of_string s).

(** A run of literals. *)
Fixpoint literals (fold : bool) (s : text) : Regexp :=
  match s with
  | [] => EmptyMatch
  | c :: s' => Concat (Literal fold c) (literals fold s')
  end.

End Regexp.

Import Regexp.

Definition lit (s : string) : Regexp := literals true (list_ascii_of_string s).

(** [lgtmRe = regexp.MustCompile(`(?mi)^/lgtm(?: no-issue)?\s*$`)] *)
Definition lgtmRe : Regexp :=
  Concat BeginLine
    (Concat (lit "/lgtm")
       (Concat (Quest (lit " no-issue"))
          (Concat (StarClass is_space) EndLine))).

(** [lgtmCancelRe = regexp.MustCompile(`(?mi)^/lgtm cancel\s*$`)] *)
Definition lgtmCancelRe : Regexp :=
  Concat BeginLine
    (Concat (lit "/lgtm cancel")
       (Concat (StarClass is_space) EndLine)).

Definition nl : string := String newline EmptyString.

(** ** Command lines, as the specification words them

    A body is read line by line; a line is a command when, with its
    trailing whitespace trimmed, it is the command up to case. *)

(** [strings.Split(body, newline)] on bytes. *)
Fixpoint lines (t : text) : list text :=
  match t with
  | [] => [ [] ]
  | c :: t' =>
      if Ascii.eqb c newline then [] :: lines t'
      else match lines t' with
           | l :: ls => (c :: l) :: ls
           | [] => [ [c] ]
           end
  end.

(** Trailing whitespace (the class of [\s]) removed. *)
Fixpoint trim_right (l : text) : text :=
  match l with
  | [] => []
  | c :: l' =>
      match trim_right l' with
      | [] => if is_space c then [] else [c]
      | r => c :: r
      end
  end.

(** [ci_eq target l]: the line [l] is [target] up to case, rune by rune. *)
Fixpoint ci_eq (target l : text) : bool :=
  match target with
  | [] => match l with [] => true | _ :: _ => false end
  | c :: target' =>
      existsb (fun m => is_prefix m l && ci_eq target' (skipn (length m) l))
        (fold_orbit c)
  end.

Definition line_is (command : string) (l : text) : bool :=
  ci_eq (list_ascii_of_string command) (trim_right l).

Definition is_approve_line (l : text) : bool :=
  line_is "/lgtm" l || line_is "/lgtm no-issue" l.

Definition is_cancel_line (l : text) : bool :=
  line_is "/lgtm cancel" l.

Definition has_approve_line (body : string) : bool :=
  existsb is_approve_line (lines (list_ascii_of_string body)).

Definition has_cancel_line (body : string) : bool :=
  existsb is_cancel_line (lines (list_ascii_of_string body)).

(** Auxiliary notions for relating the matcher to the lines. *)

(** The text up to the first newline. *)
Fixpoint first_line (t : text) : text :=
  match t with
  | [] => []
  | c :: t' => if Ascii.eqb c newline then [] else c :: first_line t'
  end.

(** [ci_then target k l]: a prefix of [l] is [target] up to case and the
    rest of [l] satisfies [k]. *)
Fixpoint ci_then (target : text) (k : text -> bool) (l : text) : bool :=
  match target with
  | [] => k l
  | c :: target' =>
      existsb (fun m => is_prefix m l && ci_then target' k (skipn (length m) l))
        (fold_orbit c)
  end.

Definition is_nil (l : text) : bool :=
  match l with [] => true | _ :: _ => false end.

Definition no_newline (m : text) : bool :=
  forallb (fun b => negb (Ascii.eqb b newline)) m.

(** No rune that matches a literal of [target] has a newline byte. *)
Definition newline_free (target : text) : bool :=
  forallb (fun c => forallb no_newline (fold_orbit c)) target.

(** Every rune that matches the last literal of [target] ends in a byte
    that is not whitespace. *)
Definition ends_solid (target : text) : bool :=
  match rev target with
  | [] => false
  | c :: _ =>
      forallb (fun m => match rev m with
                        | [] => false
                        | b :: _ => negb (is_space b)
                        end) (fold_orbit c)
  end.

(** Two byte sequences that start with different bytes. *)
Definition head_differs (m1 m2 : text) : bool :=
  match m1, m2 with
  | b1 :: _, b2 :: _ => negb (Ascii.eqb b1 b2)
  | _, _ => false
  end.

Fixpoint distinct_heads (ms : list text) : bool :=
  match ms with
  | [] => true
  | m :: ms' => forallb (head_differs m) ms' && distinct_heads ms'
  end.

(** The runes that match one literal of [target] are told apart by their
    first byte. *)
Definition deterministic (target : text) : bool :=
  forallb (fun c => distinct_heads (fold_orbit c)) target.

(** No rune that matches [c1] starts like a rune that matches [c2]. *)
Definition disjoint_heads (c1 c2 : ascii) : bool :=
  forallb (fun m1 => forallb (head_differs m1) (fold_orbit c2)) (fold_orbit c1).

(** ** The data of package [github] that the plugin reads

    The package is imported, not part of the file; the structs are given
    with the fields the plugin uses, one module per struct. *)

Module github.

Module User.
Record t : Type := mk { Login : string }.
End User.

Module Repo.
Record t : Type := mk { Owner : User.t; Name : string }.
End Repo.

Module Label.
Record t : Type := mk { Name : string }.
End Label.

Module PullRequestBranch.
Record t : Type := mk { Ref : string; Repo : github.Repo.t }.
End PullRequestBranch.

Module PullRequest.
Record t : Type := mk {
  Number : Z;
  Merged : bool;
  Base : PullRequestBranch.t }.
End PullRequest.

Module PullRequestChange.
Record t : Type := mk { Filename : string }.
End PullRequestChange.

Module IssueComment.
Record t : Type := mk { ID : Z; Body : string; User : github.User.t }.
End IssueComment.

Module GenericCommentEvent.
Record t : Type := mk {
  IsPR : bool;
  Action : string;
  Body : string;
  HTMLURL : string;
  Number : Z;
  Repo : github.Repo.t;
  User : github.User.t;
  IssueAuthor : github.User.t;
  Assignees : list github.User.t;
  IssueState : string }.
End GenericCommentEvent.

Module PullRequestEvent.
Record t : Type := mk { Action : string; PullRequest : github.PullRequest.t }.
End PullRequestEvent.

(** Modelled from the spec: the two action constants are declared in
    package [github]; the specification names the actions [created] and
    [synchronize]. *)
Definition GenericCommentActionCreated : string := "created".

Definition PullRequestActionSynchronize : string := "synchronize".

End github.

(** Go's [error] values.  A client can fail with the error of type
    [github.LabelNotFound] or with any other error; the plugin itself
    builds errors with [fmt.Errorf], kept here as the format and its
    arguments. *)
Inductive error : Type :=
| LabelNotFound
| ErrorString (msg : string)
| Errorf (format : string) (args : list fmt_arg)
with fmt_arg : Type :=
| ArgString (s : string)
| ArgInt (n : Z)
| ArgError (e : error).

(** The type assertion of [err] to a pointer to [github.LabelNotFound]:
    its second result. *)
Definition isLabelNotFound (err : error) : bool :=
  match err with
  | LabelNotFound => true
  | _ => false
  end.

(** A call that returns [(T, error)] and whose value the handlers read
    only when the error is nil: the value, or the error.  The calls whose
    value is read whatever the error return both, as a pair of the value
    and the error. *)
Inductive result (T : Type) : Type :=
| Ok (v : T)
| Err (e : error).

Arguments Ok {T} v.
Arguments Err {T} e.

(** ** Package [repoowners] and the plugin configuration *)

Module repoowners.

(** [RepoOwnerInterface], with the two methods the plugin calls;
    [sets.String] is a finite set of strings. *)
Record RepoOwner : Type := mk {
  Approvers : string -> gset string;
  Reviewers : string -> gset string }.

End repoowners.

Module plugins.

Module Owners.
Record t : Type := mk { SkipCollaborators : list string }.
End Owners.

Module Configuration.
Record t : Type := mk { Owners : plugins.Owners.t }.
End Configuration.

End plugins.

(** Functions of the imported packages [plugins] and [github] that the
    handlers call and whose code is not part of the file. *)
Class Imports : Type := {
  FormatResponseRaw : string -> string -> string -> string -> string;
  NormLogin : string -> string }.

(** ** The calls of the client interfaces *)

Inductive Level : Type := DebugLevel | InfoLevel | ErrorLevel.

(** One constructor per method of [githubClient] (of which
    [ghLabelClient] has [RemoveLabel] and [CreateComment]), the method of
    [repoowners.Interface] and the logging of a [logrus.Entry]; the index
    is the type of the value returned.  [GetIssueLabels], [BotName]
    and [ListIssueComments] return the value and the error: the handler
    logs the error and goes on with the value that came with it. *)
Inductive call : Type -> Type :=
| IsCollaborator (owner repo login : string) : call (result bool)
| AddLabel (owner repo : string) (number : Z) (label : string)
    : call (option error)
| AssignIssue (owner repo : string) (number : Z) (assignees : list string)
    : call (option error)
| CreateComment (owner repo : string) (number : Z) (comment : string)
    : call (option error)
| RemoveLabel (owner repo : string) (number : Z) (label : string)
    : call (option error)
| GetIssueLabels (org repo : string) (number : Z)
    : call (list github.Label.t * option error)
| GetPullRequest (org repo : string) (number : Z)
    : call (result github.PullRequest.t)
| GetPullRequestChanges (org repo : string) (number : Z)
    : call (result (list github.PullRequestChange.t))
| ListIssueComments (org repo : string) (number : Z)
    : call (list github.IssueComment.t * option error)
| DeleteComment (org repo : string) (ID : Z) : call (option error)
| BotName : call (string * option error)
| LoadRepoOwners (org repo ref : string) : call (result repoowners.RepoOwner)
| Log (level : Level) (err : option error) (format : string)
    (args : list fmt_arg) : call unit.

(** A handler is a program: it returns, or makes a call and goes on with
    the value returned. *)
Inductive prog (A : Type) : Type :=
| Ret (a : A)
| Vis {X : Type} (c : call X) (k : X -> prog A).

Arguments Ret {A} a.
Arguments Vis {A X} c k.

Fixpoint bind {A B : Type} (p : prog A) (f : A -> prog B) : prog B :=
  match p with
  | Ret a => f a
  | Vis c k => Vis c (fun x => bind (k x) f)
  end.

Definition perform {X : Type} (c : call X) : prog X := Vis c Ret.

Declare Scope prog_scope.
Delimit Scope prog_scope with prog.
Bind Scope prog_scope with prog.

Notation "x <- p ;; q" := (bind p (fun x => q))
  (at level 100, p at next level, right associativity) : prog_scope.
Notation "p ;; q" := (bind p (fun _ => q))
  (at level 100, right associativity) : prog_scope.

(** What a run leaves behind: the calls made, each with the value it
    returned. *)
Inductive event : Type :=
| Ev {X : Type} (c : call X) (x : X).

(** A client answers every call from its state. *)
Abbreviation client W := (forall X : Type, call X -> W -> X * W).

Fixpoint run {W A : Type} (gc : client W) (p : prog A) (w : W)
  : A * W * list event :=
  match p with
  | Ret a => (a, w, [])
  | Vis c k =>
      let '(x, w1) := gc _ c w in
      let '(a, w2, t) := run gc (k x) w1 in
      (a, w2, Ev c x :: t)
  end.

(** ** The plugin *)

Definition lgtmLabel : string := "lgtm".

Definition removeLGTMLabelNoti : string :=
  "New changes are detected. LGTM label has been removed.".

(** The double-quote character inside the messages. *)
Definition dquote : string := String "034"%char EmptyString.

(** [skipCollaborators]: is the organisation, or [org/repo], listed. *)
Definition skipCollaborators (config : plugins.Configuration.t)
    (org repo : string) : bool :=
  let full := org +:+ "/" +:+ repo in
  existsb (fun elem => String.eqb elem org || String.eqb elem full)
    (plugins.Owners.SkipCollaborators (plugins.Configuration.Owners config)).

(** [loadRepoOwners] *)
Definition loadRepoOwners (org repo : string) (number : Z)
  : prog (result repoowners.RepoOwner) :=
  (pr <- perform (GetPullRequest org repo number) ;;
   match pr with
   | Err err => Ret (Err err)
   | Ok pr =>
       perform (LoadRepoOwners org repo
         (github.PullRequestBranch.Ref (github.PullRequest.Base pr)))
   end)%prog.

(** [getChangedFiles] *)
Definition getChangedFiles (org repo : string) (number : Z)
  : prog (result (list string)) :=
  (changes <- perform (GetPullRequestChanges org repo number) ;;
   match changes with
   | Err _ =>
       Ret (Err (Errorf "cannot get PR changes for %s/%s#%d"
                   [ArgString org; ArgString repo; ArgInt number]))
   | Ok changes => Ret (Ok (map github.PullRequestChange.Filename changes))
   end)%prog.

(** [loadReviewers] *)
Definition loadReviewers (ro : repoowners.RepoOwner) (filenames : list string)
  : gset string :=
  fold_left
    (fun reviewers filename =>
       reviewers ∪ repoowners.Approvers ro filename
                 ∪ repoowners.Reviewers ro filename)
    filenames ∅.

(** Lines 89 to 96 of [handle]: the value of [wantLGTM], or [None] where
    the handler returns at once. *)
Definition wantLGTM (body : string) : option bool :=
  if MatchString lgtmRe body then Some true
  else if MatchString lgtmCancelRe body then Some false
  else None.

(** Lines 104 to 110 of [handle]. *)
Definition isAssignee (e : github.GenericCommentEvent.t) : bool :=
  existsb
    (fun assignee =>
       String.eqb (github.User.Login assignee)
         (github.User.Login (github.GenericCommentEvent.User e)))
    (github.GenericCommentEvent.Assignees e).

(** Line 115 of [handle]. *)
Definition isAuthor (e : github.GenericCommentEvent.t) : bool :=
  String.eqb (github.User.Login (github.GenericCommentEvent.User e))
    (github.User.Login (github.GenericCommentEvent.IssueAuthor e)).

Section Handlers.

Context {imports : Imports}.

(** The reply to a comment, lines 119, 133 and 148. *)
Definition reply (e : github.GenericCommentEvent.t) (resp : string)
  : call (option error) :=
  CreateComment
    (github.User.Login (github.Repo.Owner (github.GenericCommentEvent.Repo e)))
    (github.Repo.Name (github.GenericCommentEvent.Repo e))
    (github.GenericCommentEvent.Number e)
    (FormatResponseRaw (github.GenericCommentEvent.Body e)
       (github.GenericCommentEvent.HTMLURL e)
       (github.User.Login (github.GenericCommentEvent.User e)) resp).

(** Lines 98 to 150 of [handle]: who may change the label.  [Some r]:
    the handler returns [r] here; [None]: it goes on to the label. *)
Definition handle_authorization (config : plugins.Configuration.t)
    (e : github.GenericCommentEvent.t) (wantLGTM : bool)
  : prog (option (option error)) :=
  let org :=
    github.User.Login (github.Repo.Owner (github.GenericCommentEvent.Repo e)) in
  let repo := github.Repo.Name (github.GenericCommentEvent.Repo e) in
  let number := github.GenericCommentEvent.Number e in
  let commentAuthor := github.User.Login (github.GenericCommentEvent.User e) in
  let isAssignee := isAssignee e in
  let skipCollaborators := skipCollaborators config org repo in
  let isAuthor := isAuthor e in
  (if isAuthor && wantLGTM then
     let resp := "you cannot LGTM your own PR." in
     perform (Log InfoLevel None
       ("Commenting with " +:+ dquote +:+ "%s" +:+ dquote +:+ ".")
       [ArgString resp]) ;;
     r <- perform (reply e resp) ;;
     Ret (Some r)
   else if negb isAuthor && negb isAssignee && negb skipCollaborators then
     perform (Log InfoLevel None "Assigning %s/%s#%d to %s"
       [ArgString org; ArgString repo; ArgInt number; ArgString commentAuthor]) ;;
     err <- perform (AssignIssue org repo number [commentAuthor]) ;;
     match err with
     | Some err =>
         c <- perform (IsCollaborator org repo commentAuthor) ;;
         msg <- match c with
                | Ok false =>
                    Ret ("only " +:+ org +:+ "/" +:+ repo
                         +:+ " repo collaborators may be assigned issues")
                | Err merr =>
                    perform (Log ErrorLevel (Some merr)
                      "Failed IsCollaborator(%s, %s, %s)"
                      [ArgString org; ArgString repo; ArgString commentAuthor]) ;;
                    Ret "assigning you to the PR failed"
                | Ok true =>
                    perform (Log ErrorLevel (Some err)
                      "Failed AssignIssue(%s, %s, %d, %s)"
                      [ArgString org; ArgString repo; ArgInt number;
                       ArgString commentAuthor]) ;;
                    Ret "assigning you to the PR failed"
                end ;;
         let resp :=
           "changing LGTM is restricted to assignees, and " +:+ msg +:+ "." in
         perform (Log InfoLevel None
           ("Reply to assign via /lgtm request with comment: "
            +:+ dquote +:+ "%s" +:+ dquote)
           [ArgString resp]) ;;
         r <- perform (reply e resp) ;;
         Ret (Some r)
     | None => Ret None
     end
   else if negb isAuthor && skipCollaborators then
     perform (Log DebugLevel None
       "Skipping collaborator checks and loading OWNERS for %s/%s#%d"
       [ArgString org; ArgString repo; ArgInt number]) ;;
     ro <- loadRepoOwners org repo number ;;
     match ro with
     | Err err => Ret (Some (Some err))
     | Ok ro =>
         filenames <- getChangedFiles org repo number ;;
         match filenames with
         | Err err => Ret (Some (Some err))
         | Ok filenames =>
             if negb (bool_decide
                        (NormLogin commentAuthor ∈ loadReviewers ro filenames))
             then
               let resp :=
                 "adding LGTM is restricted to approvers and reviewers in OWNERS files."
               in
               perform (Log InfoLevel None
                 ("Reply to /lgtm request with comment: "
                  +:+ dquote +:+ "%s" +:+ dquote)
                 [ArgString resp]) ;;
               r <- perform (reply e resp) ;;
               Ret (Some r)
             else Ret None
         end
     end
   else Ret None)%prog.

(** Lines 181 to 187 of [handle]: the stale notifications of the bot are
    deleted. *)
Fixpoint deleteNotifications (org repo : string) (number : Z)
    (botname : string) (comments : list github.IssueComment.t) : prog unit :=
  match comments with
  | [] => Ret tt
  | comment :: comments' =>
      ((if String.eqb (github.User.Login (github.IssueComment.User comment))
             botname
           && String.eqb (github.IssueComment.Body comment) removeLGTMLabelNoti
        then
          err <- perform (DeleteComment org repo (github.IssueComment.ID comment)) ;;
          match err with
          | Some err =>
              perform (Log ErrorLevel (Some err)
                "Failed to delete comment from %s/%s#%d, ID:%d."
                [ArgString org; ArgString repo; ArgInt number;
                 ArgInt (github.IssueComment.ID comment)])
          | None => Ret tt
          end
        else Ret tt) ;;
       deleteNotifications org repo number botname comments')%prog
  end.

Definition hasLabel (labels : list github.Label.t) : bool :=
  existsb (fun candidate => String.eqb (github.Label.Name candidate) lgtmLabel)
    labels.

(** Lines 172 to 187 of [handle]: once the label is added, the
    notifications of its removal are looked up and deleted; a failure is
    logged and the clean-up goes on with the value that came with the
    error. *)
Definition deleteStaleNotifications (org repo : string) (number : Z)
  : prog unit :=
  (b <- perform BotName ;;
   let '(botname, err) := b in
   match err with
   | Some err => perform (Log ErrorLevel (Some err) "Failed to get bot name." [])
   | None => Ret tt
   end ;;
   cs <- perform (ListIssueComments org repo number) ;;
   let '(comments, err) := cs in
   match err with
   | Some err =>
       perform (Log ErrorLevel (Some err)
         "Failed to get the list of issue comments on %s/%s#%d."
         [ArgString org; ArgString repo; ArgInt number])
   | None => Ret tt
   end ;;
   deleteNotifications org repo number botname comments)%prog.

(** Lines 152 to 189 of [handle]: the label is added or removed when it
    is not as wanted; the labels are those that [GetIssueLabels]
    returned, with or without an error. *)
Definition handle_label (e : github.GenericCommentEvent.t) (wantLGTM : bool)
  : prog (option error) :=
  let org :=
    github.User.Login (github.Repo.Owner (github.GenericCommentEvent.Repo e)) in
  let repo := github.Repo.Name (github.GenericCommentEvent.Repo e) in
  let number := github.GenericCommentEvent.Number e in
  (r <- perform (GetIssueLabels org repo number) ;;
   let '(labels, err) := r in
   match err with
   | Some err =>
       perform (Log ErrorLevel (Some err)
         "Failed to get the labels on %s/%s#%d."
         [ArgString org; ArgString repo; ArgInt number])
   | None => Ret tt
   end ;;
   let hasLGTM := hasLabel labels in
   if hasLGTM && negb wantLGTM then
     perform (Log InfoLevel None "Removing LGTM label." []) ;;
     perform (RemoveLabel org repo number lgtmLabel)
   else if negb hasLGTM && wantLGTM then
     perform (Log InfoLevel None "Adding LGTM label." []) ;;
     err <- perform (AddLabel org repo number lgtmLabel) ;;
     match err with
     | Some err => Ret (Some err)
     | None =>
         deleteStaleNotifications org repo number ;;
         Ret None
     end
   else Ret None)%prog.

(** [handle] *)
Definition handle (config : plugins.Configuration.t)
    (e : github.GenericCommentEvent.t) : prog (option error) :=
  if negb (github.GenericCommentEvent.IsPR e)
     || negb (String.eqb (github.GenericCommentEvent.IssueState e) "open")
     || negb (String.eqb (github.GenericCommentEvent.Action e)
                github.GenericCommentActionCreated)
  then Ret None
  else
    match wantLGTM (github.GenericCommentEvent.Body e) with
    | None => Ret None
    | Some wantLGTM =>
        (a <- handle_authorization config e wantLGTM ;;
         match a with
         | Some r => Ret r
         | None => handle_label e wantLGTM
         end)%prog
    end.

(** [handlePullRequest] *)
Definition handlePullRequest (pe : github.PullRequestEvent.t)
  : prog (option error) :=
  let pr := github.PullRequestEvent.PullRequest pe in
  if github.PullRequest.Merged pr then Ret None
  else if negb (String.eqb (github.PullRequestEvent.Action pe)
                  github.PullRequestActionSynchronize)
  then Ret None
  else
    let org :=
      github.User.Login
        (github.Repo.Owner
           (github.PullRequestBranch.Repo (github.PullRequest.Base pr))) in
    let repo :=
      github.Repo.Name
        (github.PullRequestBranch.Repo (github.PullRequest.Base pr)) in
    let number := github.PullRequest.Number pr in
    let notify (labelNotFound : bool) : prog (option error) :=
      (if negb labelNotFound then
         perform (Log InfoLevel None
           "Create a LGTM removed notification to %s/%s#%d  with a message: %s"
           [ArgString org; ArgString repo; ArgInt number;
            ArgString removeLGTMLabelNoti]) ;;
         perform (CreateComment org repo number removeLGTMLabelNoti)
       else Ret None)%prog in
    (err <- perform (RemoveLabel org repo number lgtmLabel) ;;
     match err with
     | Some err =>
         if negb (isLabelNotFound err)
         then Ret (Some (Errorf "failed removing lgtm label: %v" [ArgError err]))
         else notify true
     | None => notify false
     end)%prog.

End Handlers.

(** The union of the approvers and the reviewers of the files, as the
    specification words the set of [loadReviewers]. *)
Definition owners_of (ro : repoowners.RepoOwner) (filenames : list string)
  : gset string :=
  ⋃ (map (fun filename =>
            repoowners.Approvers ro filename ∪ repoowners.Reviewers ro filename)
       filenames).

(** The assignee test as it would be with normalized logins. *)
Definition isAssignee_normalized {imports : Imports}
    (e : github.GenericCommentEvent.t) : bool :=
  existsb
    (fun assignee =>
       String.eqb (NormLogin (github.User.Login assignee))
         (NormLogin (github.User.Login (github.GenericCommentEvent.User e))))
    (github.GenericCommentEvent.Assignees e).

(** The guard of [handle], line 83: an open pull request and a new
    comment. *)
Definition considered (e : github.GenericCommentEvent.t) : bool :=
  github.GenericCommentEvent.IsPR e
  && String.eqb (github.GenericCommentEvent.IssueState e) "open"
  && String.eqb (github.GenericCommentEvent.Action e)
       github.GenericCommentActionCreated.

(** ** Observing a run *)

Definition is_log (ev : event) : bool :=
  match ev with
  | Ev (Log _ _ _ _) _ => true
  | Ev _ _ => false
  end.

(** The calls to the clients, the logging left out. *)
Definition calls (t : list event) : list event :=
  List.filter (fun ev => negb (is_log ev)) t.

Definition is_AddLabel (ev : event) : bool :=
  match ev with
  | Ev (AddLabel _ _ _ _) _ => true
  | Ev _ _ => false
  end.

Definition is_RemoveLabel (ev : event) : bool :=
  match ev with
  | Ev (RemoveLabel _ _ _ _) _ => true
  | Ev _ _ => false
  end.

Definition is_GetIssueLabels (ev : event) : bool :=
  match ev with
  | Ev (GetIssueLabels _ _ _) _ => true
  | Ev _ _ => false
  end.

Definition is_AssignIssue (ev : event) : bool :=
  match ev with
  | Ev (AssignIssue _ _ _ _) _ => true
  | Ev _ _ => false
  end.

Definition is_CreateComment (ev : event) : bool :=
  match ev with
  | Ev (CreateComment _ _ _ _) _ => true
  | Ev _ _ => false
  end.

(** The calls made only to decide who may change the label. *)
Definition authorization_call (ev : event) : bool :=
  match ev with
  | Ev (AssignIssue _ _ _ _) _ => true
  | Ev (IsCollaborator _ _ _) _ => true
  | Ev (GetPullRequest _ _ _) _ => true
  | Ev (LoadRepoOwners _ _ _) _ => true
  | Ev (GetPullRequestChanges _ _ _) _ => true
  | Ev _ _ => false
  end.

Fixpoint count (f : event -> bool) (t : list event) : nat :=
  match t with
  | [] => 0
  | ev :: t' => (if f ev then 1 else 0) + count f t'
  end.

(** The events of the clean-up of stale notifications. *)
Definition cleanup_event (ev : event) : bool :=
  match ev with
  | Ev BotName _ => true
  | Ev (ListIssueComments _ _ _) _ => true
  | Ev (DeleteComment _ _ _) _ => true
  | Ev (Log _ _ _ _) _ => true
  | Ev _ _ => false
  end.

(** What the first call of a kind returned, if the run made one. *)
Fixpoint labels_fetched (t : list event)
  : option (list github.Label.t * option error) :=
  match t with
  | [] => None
  | Ev c x :: t' =>
      match c in call X
            return X -> option (list github.Label.t * option error) with
      | GetIssueLabels _ _ _ => fun r => Some r
      | _ => fun _ => labels_fetched t'
      end x
  end.

Fixpoint owners_loaded (t : list event) : option (result repoowners.RepoOwner) :=
  match t with
  | [] => None
  | Ev c x :: t' =>
      match c in call X return X -> option (result repoowners.RepoOwner) with
      | LoadRepoOwners _ _ _ => fun r => Some r
      | _ => fun _ => owners_loaded t'
      end x
  end.

Fixpoint changes_fetched (t : list event)
  : option (result (list github.PullRequestChange.t)) :=
  match t with
  | [] => None
  | Ev c x :: t' =>
      match c in call X
            return X -> option (result (list github.PullRequestChange.t)) with
      | GetPullRequestChanges _ _ _ => fun r => Some r
      | _ => fun _ => changes_fetched t'
      end x
  end.

(** The label as the run saw it, in the labels that the fetch returned
    with or without an error: absent also when no fetch was made. *)
Definition observed_label (t : list event) : bool :=
  match labels_fetched t with
  | Some (labels, _) => hasLabel labels
  | None => false
  end.

(** ** A client to run the handlers on

    A client that keeps the labels and the comments of one pull request
    and has fixed answers for the rest; with an error it returns the
    zero value. *)

Record fake : Type := mkfake {
  fake_labels : list string;
  fake_labels_error : option error;
  fake_assign_error : option error;
  fake_collaborator : result bool;
  fake_pr : result github.PullRequest.t;
  fake_changes : result (list github.PullRequestChange.t);
  fake_owners : result repoowners.RepoOwner;
  fake_comments : list github.IssueComment.t;
  fake_botname : result string }.

Definition with_labels (w : fake) (labels : list string) : fake :=
  mkfake labels (fake_labels_error w) (fake_assign_error w)
    (fake_collaborator w) (fake_pr w) (fake_changes w) (fake_owners w)
    (fake_comments w) (fake_botname w).

Definition with_comments (w : fake) (comments : list github.IssueComment.t)
  : fake :=
  mkfake (fake_labels w) (fake_labels_error w) (fake_assign_error w)
    (fake_collaborator w) (fake_pr w) (fake_changes w) (fake_owners w)
    comments (fake_botname w).

Definition fake_client : client fake :=
  fun X c w =>
    match c in call X return X * fake with
    | IsCollaborator _ _ _ => (fake_collaborator w, w)
    | AddLabel _ _ _ label => (None, with_labels w (fake_labels w ++ [label]))
    | AssignIssue _ _ _ _ => (fake_assign_error w, w)
    | CreateComment _ _ _ comment =>
        (None,
         with_comments w
           (fake_comments w
            ++ [github.IssueComment.mk (Z.of_nat (length (fake_comments w)))
                  comment (github.User.mk "k8s-ci-robot")]))
    | RemoveLabel _ _ _ label =>
        if existsb (String.eqb label) (fake_labels w)
        then (None,
              with_labels w
                (List.filter (fun l => negb (String.eqb label l)) (fake_labels w)))
        else (Some LabelNotFound, w)
    | GetIssueLabels _ _ _ =>
        (match fake_labels_error w with
         | Some err => ([], Some err)
         | None => (map github.Label.mk (fake_labels w), None)
         end, w)
    | GetPullRequest _ _ _ => (fake_pr w, w)
    | GetPullRequestChanges _ _ _ => (fake_changes w, w)
    | ListIssueComments _ _ _ => ((fake_comments w, None), w)
    | DeleteComment _ _ ID =>
        (None,
         with_comments w
           (List.filter
              (fun cm => negb (Z.eqb (github.IssueComment.ID cm) ID))
              (fake_comments w)))
    | BotName =>
        (match fake_botname w with
         | Ok botname => (botname, None)
         | Err err => (EmptyString, Some err)
         end, w)
    | LoadRepoOwners _ _ _ => (fake_owners w, w)
    | Log _ _ _ _ => (tt, w)
    end.

(** ASCII letters lowered. *)
Definition lower_string (s : string) : string :=
  string_of_list_ascii (map to_lower (list_ascii_of_string s)).

(** Modelled from the spec: [plugins.FormatResponseRaw] and
    [github.NormLogin] are not part of the file; the specification has a
    reply quote the triggering comment, mention the commenting actor and
    append the message, and has logins normalized in case. *)
Definition fake_imports : Imports := {|
  FormatResponseRaw body url login reply :=
    "> " +:+ body +:+ nl +:+ "@" +:+ login +:+ ": " +:+ reply;
  NormLogin := lower_string |}.

(** ** More to observe in a run *)

(** What the first event that [f] reads from gives. *)
Fixpoint first_seen {A : Type} (f : event -> option A) (t : list event)
  : option A :=
  match t with
  | [] => None
  | ev :: t' =>
      match f ev with
      | Some a => Some a
      | None => first_seen f t'
      end
  end.

Definition assign_result : list event -> option (option error) :=
  first_seen
    (fun ev =>
       match ev with
       | Ev c x =>
           match c in call X return X -> option (option error) with
           | AssignIssue _ _ _ _ => fun r => Some r
           | _ => fun _ => None
           end x
       end).

Definition collaborator_result : list event -> option (result bool) :=
  first_seen
    (fun ev =>
       match ev with
       | Ev c x =>
           match c in call X return X -> option (result bool) with
           | IsCollaborator _ _ _ => fun r => Some r
           | _ => fun _ => None
           end x
       end).

Definition pr_fetched : list event -> option (result github.PullRequest.t) :=
  first_seen
    (fun ev =>
       match ev with
       | Ev c x =>
           match c in call X
                 return X -> option (result github.PullRequest.t) with
           | GetPullRequest _ _ _ => fun r => Some r
           | _ => fun _ => None
           end x
       end).

Definition add_result : list event -> option (option error) :=
  first_seen
    (fun ev =>
       match ev with
       | Ev c x =>
           match c in call X return X -> option (option error) with
           | AddLabel _ _ _ _ => fun r => Some r
           | _ => fun _ => None
           end x
       end).

Definition remove_result : list event -> option (option error) :=
  first_seen
    (fun ev =>
       match ev with
       | Ev c x =>
           match c in call X return X -> option (option error) with
           | RemoveLabel _ _ _ _ => fun r => Some r
           | _ => fun _ => None
           end x
       end).

Definition bot_named : list event -> option (string * option error) :=
  first_seen
    (fun ev =>
       match ev with
       | Ev c x =>
           match c in call X return X -> option (string * option error) with
           | BotName => fun r => Some r
           | _ => fun _ => None
           end x
       end).

Definition comments_listed
  : list event -> option (list github.IssueComment.t * option error) :=
  first_seen
    (fun ev =>
       match ev with
       | Ev c x =>
           match c in call X
                 return X -> option (list github.IssueComment.t * option error)
           with
           | ListIssueComments _ _ _ => fun r => Some r
           | _ => fun _ => None
           end x
       end).

(** The deletions a run asked for, in order: the organisation, the
    repository and the comment of each call of [DeleteComment]. *)
Fixpoint deletions (t : list event) : list (string * string * Z) :=
  match t with
  | [] => []
  | Ev c _ :: t' =>
      match c with
      | DeleteComment org repo ID => (org, repo, ID) :: deletions t'
      | _ => deletions t'
      end
  end.

(** A call that returned an error. *)
Definition failed (ev : event) : bool :=
  match ev with
  | Ev c x =>
      match c in call X return X -> bool with
      | IsCollaborator _ _ _ => fun r => match r with Ok _ => false | Err _ => true end
      | AddLabel _ _ _ _ => fun r => match r with Some _ => true | None => false end
      | AssignIssue _ _ _ _ => fun r => match r with Some _ => true | None => false end
      | CreateComment _ _ _ _ => fun r => match r with Some _ => true | None => false end
      | RemoveLabel _ _ _ _ => fun r => match r with Some _ => true | None => false end
      | GetIssueLabels _ _ _ => fun r => match snd r with Some _ => true | None => false end
      | GetPullRequest _ _ _ => fun r => match r with Ok _ => false | Err _ => true end
      | GetPullRequestChanges _ _ _ => fun r => match r with Ok _ => false | Err _ => true end
      | ListIssueComments _ _ _ => fun r => match snd r with Some _ => true | None => false end
      | DeleteComment _ _ _ => fun r => match r with Some _ => true | None => false end
      | BotName => fun r => match snd r with Some _ => true | None => false end
      | LoadRepoOwners _ _ _ => fun r => match r with Ok _ => false | Err _ => true end
      | Log _ _ _ _ => fun _ => false
      end x
  end.

(** The calls of the clean-up after the label is added. *)
Definition cleanup_call (ev : event) : bool :=
  match ev with
  | Ev BotName _ => true
  | Ev (ListIssueComments _ _ _) _ => true
  | Ev (DeleteComment _ _ _) _ => true
  | Ev _ _ => false
  end.

(** The events of the first half of [handle]. *)
Definition authorization_event (ev : event) : bool :=
  is_log ev || is_CreateComment ev || authorization_call ev.

(** The events of the second half of [handle]. *)
Definition label_event (ev : event) : bool :=
  is_log ev || is_GetIssueLabels ev || is_AddLabel ev || is_RemoveLabel ev
  || cleanup_call ev.

(** The events of the loop that deletes. *)
Definition delete_event (ev : event) : bool :=
  match ev with
  | Ev (DeleteComment _ _ _) _ => true
  | Ev (Log _ _ _ _) _ => true
  | Ev _ _ => false
  end.

(** The test of line 182: a notification of the bot. *)
Definition is_stale (botname : string) (comment : github.IssueComment.t)
  : bool :=
  String.eqb (github.User.Login (github.IssueComment.User comment)) botname
  && String.eqb (github.IssueComment.Body comment) removeLGTMLabelNoti.

(** The name of the bot and the comments as the run got them, with or
    without an error: the zero value when the call was not made. *)
Definition botname_of (t : list event) : string :=
  match bot_named t with
  | Some (botname, _) => botname
  | None => EmptyString
  end.

Definition comments_of (t : list event) : list github.IssueComment.t :=
  match comments_listed t with
  | Some (comments, _) => comments
  | None => []
  end.

(** The reply after a failed assignment, lines 123 to 131. *)
Definition assign_failure_reply (org repo : string) (c : result bool)
  : string :=
  "changing LGTM is restricted to assignees, and "
  +:+ match c with
      | Ok false =>
          "only " +:+ org +:+ "/" +:+ repo
          +:+ " repo collaborators may be assigned issues"
      | _ => "assigning you to the PR failed"
      end
  +:+ ".".

(** Every byte. *)
Definition all_ascii : list ascii := map ascii_of_nat (seq 0 256).

(** A byte that is no ASCII letter. *)
Definition plain (x : ascii) : bool := negb (is_lower x || is_upper x).

(** The rune of one byte [y]. *)
Definition is_byte (y : ascii) (m : text) : bool :=
  match m with
  | [x] => Ascii.eqb x y
  | _ => false
  end.

(** ** Concrete inputs *)

Definition test_repo : github.Repo.t :=
  github.Repo.mk (github.User.mk "kubernetes") "test-infra".

(** A new comment on the open pull request 5 of [kubernetes/test-infra]. *)
Definition comment_event (body commenter author : string)
    (assignees : list string) : github.GenericCommentEvent.t :=
  github.GenericCommentEvent.mk true github.GenericCommentActionCreated body
    "https://github.com/kubernetes/test-infra/pull/5#issuecomment-1" 5
    test_repo (github.User.mk commenter) (github.User.mk author)
    (map github.User.mk assignees) "open".

Definition test_pr : github.PullRequest.t :=
  github.PullRequest.mk 5 false
    (github.PullRequestBranch.mk "master" test_repo).

(** [alice] approves and [bob] reviews the files under [prow/]. *)
Definition test_owners : repoowners.RepoOwner :=
  repoowners.mk
    (fun filename =>
       if String.prefix "prow/" filename then {[ "alice" ]} else ∅)
    (fun filename =>
       if String.prefix "prow/" filename then {[ "bob" ]} else ∅).

Definition test_changes : list github.PullRequestChange.t :=
  [github.PullRequestChange.mk "prow/plugins/lgtm/lgtm.go";
   github.PullRequestChange.mk "README.md"].

(** The pull request with the given labels; every call succeeds. *)
Definition world (labels : list string) : fake :=
  mkfake labels None None (Ok true) (Ok test_pr) (Ok test_changes)
    (Ok test_owners) [] (Ok "k8s-ci-robot").

(** The same, but the labels cannot be fetched. *)
Definition world_without_fetch (labels : list string) : fake :=
  mkfake labels (Some (ErrorString "status code 502")) None (Ok true)
    (Ok test_pr) (Ok test_changes) (Ok test_owners) [] (Ok "k8s-ci-robot").

Definition no_skip : plugins.Configuration.t :=
  plugins.Configuration.mk (plugins.Owners.mk []).

Definition skip_kubernetes : plugins.Configuration.t :=
  plugins.Configuration.mk (plugins.Owners.mk ["kubernetes"]).

Definition sync_event (merged : bool) (action : string)
  : github.PullRequestEvent.t :=
  github.PullRequestEvent.mk action
    (github.PullRequest.mk 5 merged
       (github.PullRequestBranch.mk "master" test_repo)).

(** A body with an approve line and a cancel line. *)
Definition two_commands : string := "/lgtm" +:+ nl +:+ "/lgtm cancel".

(** [/lgtm no-issue] written with two long s (U+017F, bytes 197 191). *)
Definition long_s_command : string :=
  "/lgtm no-i"
  +:+ String "197" (String "191" (String "197" (String "191" "ue"))).

(** A client with one fixed answer for each kind of call. *)
Record answers : Type := mkanswers {
  ans_labels : list github.Label.t * option error;
  ans_add : option error;
  ans_remove : option error;
  ans_assign : option error;
  ans_collaborator : result bool;
  ans_comment : option error;
  ans_pr : result github.PullRequest.t;
  ans_owners : result repoowners.RepoOwner;
  ans_changes : result (list github.PullRequestChange.t);
  ans_bot : string * option error;
  ans_comments : list github.IssueComment.t * option error;
  ans_delete : option error }.

Definition answering (a : answers) : client unit :=
  fun X c w =>
    match c in call X return X * unit with
    | IsCollaborator _ _ _ => (ans_collaborator a, w)
    | AddLabel _ _ _ _ => (ans_add a, w)
    | AssignIssue _ _ _ _ => (ans_assign a, w)
    | CreateComment _ _ _ _ => (ans_comment a, w)
    | RemoveLabel _ _ _ _ => (ans_remove a, w)
    | GetIssueLabels _ _ _ => (ans_labels a, w)
    | GetPullRequest _ _ _ => (ans_pr a, w)
    | GetPullRequestChanges _ _ _ => (ans_changes a, w)
    | ListIssueComments _ _ _ => (ans_comments a, w)
    | DeleteComment _ _ _ => (ans_delete a, w)
    | BotName => (ans_bot a, w)
    | LoadRepoOwners _ _ _ => (ans_owners a, w)
    | Log _ _ _ _ => (tt, w)
    end.

Definition timeout : error := ErrorString "timeout".

(** Three comments: a notification of the bot, a review, another
    notification of the bot. *)
Definition test_comments : list github.IssueComment.t :=
  [github.IssueComment.mk 11 removeLGTMLabelNoti (github.User.mk "k8s-ci-robot");
   github.IssueComment.mk 12 "/lgtm" (github.User.mk "bob");
   github.IssueComment.mk 13 removeLGTMLabelNoti (github.User.mk "k8s-ci-robot")].

(** No label yet, every call succeeds. *)
Definition all_well : answers :=
  mkanswers ([], None) None None None (Ok true) None (Ok test_pr)
    (Ok test_owners) (Ok test_changes) ("k8s-ci-robot", None)
    (test_comments, None) None.

(** Every call fails, with the zero value. *)
Definition all_fail : answers :=
  mkanswers ([], Some timeout) (Some timeout) (Some timeout) (Some timeout)
    (Err timeout) (Some timeout) (Err timeout) (Err timeout) (Err timeout)
    (EmptyString, Some timeout) ([], Some timeout) (Some timeout).

(** The label is reported, but gone when it is removed. *)
Definition label_race : answers :=
  mkanswers ([github.Label.mk "lgtm"], None) None (Some LabelNotFound) None
    (Ok true) None (Ok test_pr) (Ok test_owners) (Ok test_changes)
    ("k8s-ci-robot", None) ([], None) None.

(** The labels come with an error, the label [lgtm] among them. *)
Definition labels_with_error : answers :=
  mkanswers ([github.Label.mk "lgtm"], Some timeout) None None None
    (Ok true) None (Ok test_pr) (Ok test_owners) (Ok test_changes)
    ("k8s-ci-robot", None) ([], None) None.

(** The owners load, the changed files do not; and the owners do not
    load. *)
Definition changes_fail : answers :=
  mkanswers ([], None) None None None (Ok true) None (Ok test_pr)
    (Ok test_owners) (Err timeout) ("k8s-ci-robot", None) ([], None) None.

Definition owners_fail : answers :=
  mkanswers ([], None) None None None (Ok true) None (Ok test_pr)
    (Err timeout) (Ok test_changes) ("k8s-ci-robot", None) ([], None) None.

(** No file is changed. *)
Definition no_changes : answers :=
  mkanswers ([], None) None None None (Ok true) None (Ok test_pr)
    (Ok test_owners) (Ok []) ("k8s-ci-robot", None) ([], None) None.

(** The label is added; the name of the bot and the comments come with
    an error, and the deletions fail. *)
Definition deletions_fail : answers :=
  mkanswers ([], None) None None None (Ok true) None (Ok test_pr)
    (Ok test_owners) (Ok test_changes) ("k8s-ci-robot", Some timeout)
    (test_comments, Some timeout) (Some timeout).

(* ================================================================== *)
(** * Properties *)

(** ** The patterns on some bodies *)

Example lgtm_alone : MatchString lgtmRe "/lgtm" = true.
Proof. reflexivity. Qed.

Example lgtm_upper_trailing : MatchString lgtmRe "/LGTM no-issue  " = true.
Proof. reflexivity. Qed.

Example lgtm_crlf :
  MatchString lgtmRe ("/lgtm" +:+ String "013" nl +:+ "thanks") = true.
Proof. reflexivity. Qed.

Example lgtm_long_s : MatchString lgtmRe long_s_command = true.
Proof. reflexivity. Qed.

Example lgtm_indented : MatchString lgtmRe " /lgtm" = false.
Proof. reflexivity. Qed.

Example lgtm_two_spaces : MatchString lgtmRe "/lgtm  no-issue" = false.
Proof. reflexivity. Qed.

Example lgtm_inner_line :
  MatchString lgtmRe ("hi" +:+ nl +:+ "/lgtm" +:+ nl +:+ "x") = true.
Proof. reflexivity. Qed.

Example lgtm_longer_word :
  MatchString lgtmRe ("hi" +:+ nl +:+ "/lgtmx" +:+ nl +:+ "x") = false.
Proof. reflexivity. Qed.

Example cancel_is_not_lgtm : MatchString lgtmRe "/lgtm cancel" = false.
Proof. reflexivity. Qed.

Example cancel_alone : MatchString lgtmCancelRe "/lgtm Cancel" = true.
Proof. reflexivity. Qed.

Example two_commands_is_approve : wantLGTM two_commands = Some true.
Proof. reflexivity. Qed.

(** ** The matcher *)

Section MatcherFacts.

Lemma existsb_flat_map {A B} (f : B -> bool) (g : A -> list B) (l : list A) :
  existsb f (flat_map g l) = existsb (fun x => existsb f (g x)) l.
Proof.
  induction l as [|x l IH]; simpl; [reflexivity|].
  rewrite existsb_app, IH. reflexivity.
Qed.

Lemma existsb_ext {A} (f g : A -> bool) (l : list A) :
  (forall x, f x = g x) -> existsb f l = existsb g l.
Proof.
  intros H. induction l as [|x l IH]; simpl; [reflexivity|].
  rewrite H, IH. reflexivity.
Qed.

Lemma matches_at_existsb re p :
  matches_at re p = existsb (fun _ => true) (ends re p).
Proof. unfold matches_at. destruct (ends re p); reflexivity. Qed.

Lemma matches_concat r1 r2 p :
  matches_at (Concat r1 r2) p = existsb (matches_at r2) (ends r1 p).
Proof.
  rewrite matches_at_existsb. simpl. rewrite existsb_flat_map.
  apply existsb_ext. intros q. symmetry. apply matches_at_existsb.
Qed.

Lemma matches_concat_assoc r1 r2 r3 p :
  matches_at (Concat (Concat r1 r2) r3) p
  = matches_at (Concat r1 (Concat r2 r3)) p.
Proof.
  rewrite !matches_concat. simpl. rewrite existsb_flat_map.
  apply existsb_ext. intros q. symmetry. apply matches_concat.
Qed.

Lemma matches_quest r1 r2 p :
  matches_at (Concat (Quest r1) r2) p
  = matches_at (Concat r1 r2) p || matches_at r2 p.
Proof.
  rewrite !matches_concat. simpl. rewrite existsb_app. simpl.
  rewrite orb_false_r. reflexivity.
Qed.

Lemma matches_begin_line r p :
  matches_at (Concat BeginLine r) p = at_bol p && matches_at r p.
Proof.
  rewrite matches_concat. simpl. destruct (at_bol p); simpl;
    [apply orb_false_r | reflexivity].
Qed.

Lemma matches_literal c r pre post :
  matches_at (Concat (Literal true c) r) (pre, post)
  = existsb (fun m => is_prefix m post
                      && matches_at r (rev m ++ pre, skipn (length m) post))
      (fold_orbit c).
Proof.
  rewrite matches_concat. simpl. rewrite existsb_flat_map.
  apply existsb_ext. intros m. unfold advance. simpl.
  destruct (is_prefix m post); simpl; [apply orb_false_r | reflexivity].
Qed.

(** A run of literals followed by [r], when [r] does not look behind the
    cursor. *)
Lemma matches_literals target r (k : text -> bool) :
  (forall pre post, matches_at r (pre, post) = k post) ->
  forall pre post,
    matches_at (Concat (literals true target) r) (pre, post)
    = ci_then target k post.
Proof.
  intros Hr. induction target as [|c target IH]; intros pre post; simpl.
  - rewrite matches_concat. simpl. rewrite orb_false_r. apply Hr.
  - rewrite matches_concat_assoc, matches_literal.
    apply existsb_ext. intros m. rewrite IH. reflexivity.
Qed.

(** Trailing [\s*$]: the rest of the line is whitespace. *)
Lemma matches_space_eol pre post :
  matches_at (Concat (StarClass is_space) EndLine) (pre, post)
  = forallb is_space (first_line post).
Proof.
  rewrite matches_concat. cbn [ends fst snd]. revert pre.
  induction post as [|c post IH]; intros pre; [reflexivity|].
  assert (He : matches_at EndLine (pre, c :: post) = Ascii.eqb c newline).
  { unfold matches_at, ends, at_eol. cbn [snd].
    destruct (Ascii.eqb c newline); reflexivity. }
  cbn [star_class first_line].
  destruct (is_space c) eqn:Hs.
  - rewrite existsb_app, IH. cbn [existsb]. rewrite He, orb_false_r.
    destruct (Ascii.eqb c newline) eqn:Hn; cbn [forallb].
    + apply orb_true_r.
    + rewrite Hs. rewrite orb_false_r. reflexivity.
  - cbn [existsb]. rewrite He, orb_false_r.
    destruct (Ascii.eqb c newline) eqn:Hn; cbn [forallb].
    + apply Ascii.eqb_eq in Hn. subst c. discriminate Hs.
    + rewrite Hs. reflexivity.
Qed.

End MatcherFacts.

(** ** Lines and trimming *)

Section LineFacts.

Lemma skipn_length_app (m r : text) : skipn (length m) (m ++ r) = r.
Proof. induction m as [|a m IH]; simpl; [reflexivity | exact IH]. Qed.

Lemma is_prefix_app (m r : text) : is_prefix m (m ++ r) = true.
Proof.
  induction m as [|a m IH]; simpl; [reflexivity|].
  rewrite Ascii.eqb_refl. exact IH.
Qed.

Lemma is_prefix_split (m l : text) :
  is_prefix m l = true -> l = m ++ skipn (length m) l.
Proof.
  revert l. induction m as [|a m IH]; intros l H; simpl; [reflexivity|].
  destruct l as [|b l]; simpl in H; [discriminate|].
  apply andb_true_iff in H as [Hab Hm].
  apply Ascii.eqb_eq in Hab. subst b. simpl. f_equal. apply IH, Hm.
Qed.

Lemma ci_then_ext target (k1 k2 : text -> bool) l :
  (forall r, k1 r = k2 r) -> ci_then target k1 l = ci_then target k2 l.
Proof.
  intros H. revert l. induction target as [|c target IH]; intros l; simpl.
  - apply H.
  - apply existsb_ext. intros m. rewrite IH. reflexivity.
Qed.

Lemma existsb_orb {A} (f g : A -> bool) (l : list A) :
  existsb (fun x => f x || g x) l = existsb f l || existsb g l.
Proof.
  induction l as [|x l IH]; simpl; [reflexivity|].
  rewrite IH. destruct (f x), (g x), (existsb f l); reflexivity.
Qed.

Lemma ci_then_orb target (k1 k2 : text -> bool) l :
  ci_then target (fun r => k1 r || k2 r) l
  = ci_then target k1 l || ci_then target k2 l.
Proof.
  revert l. induction target as [|c target IH]; intros l; simpl.
  - reflexivity.
  - rewrite <- existsb_orb. apply existsb_ext. intros m.
    rewrite IH. destruct (is_prefix m l); reflexivity.
Qed.

Lemma ci_then_app t1 t2 (k : text -> bool) l :
  ci_then (t1 ++ t2) k l = ci_then t1 (ci_then t2 k) l.
Proof.
  revert l. induction t1 as [|c t1 IH]; intros l; simpl.
  - reflexivity.
  - apply existsb_ext. intros m. rewrite IH. reflexivity.
Qed.

Lemma ci_eq_then target l : ci_eq target l = ci_then target is_nil l.
Proof.
  revert l. induction target as [|c target IH]; intros l; simpl.
  - reflexivity.
  - apply existsb_ext. intros m. rewrite IH. reflexivity.
Qed.

(** [ci_then] reads as a split of the line. *)
Lemma ci_then_split target (k : text -> bool) l :
  ci_then target k l = true <->
  exists m ws, l = m ++ ws /\ ci_eq target m = true /\ k ws = true.
Proof.
  revert l. induction target as [|c target IH]; intros l; simpl.
  - split.
    + intros H. exists [], l. auto.
    + intros (m & ws & -> & Hm & Hk). destruct m; [exact Hk | discriminate].
  - rewrite existsb_exists. split.
    + intros (m0 & Hin & H). apply andb_true_iff in H as [Hp H].
      apply IH in H as (m & ws & Hl & Hm & Hk).
      exists (m0 ++ m), ws. split; [|split; [|exact Hk]].
      * rewrite (is_prefix_split _ _ Hp), Hl, app_assoc. reflexivity.
      * apply existsb_exists. exists m0. split; [exact Hin|].
        rewrite is_prefix_app, skipn_length_app. exact Hm.
    + intros (m & ws & -> & Hm & Hk).
      apply existsb_exists in Hm as (m0 & Hin & H).
      apply andb_true_iff in H as [Hp H].
      exists m0. split; [exact Hin|].
      rewrite (is_prefix_split _ _ Hp), <- app_assoc.
      rewrite is_prefix_app, skipn_length_app. simpl.
      apply IH. exists (skipn (length m0) m), ws. auto.
Qed.

Lemma trim_right_app_space m ws :
  forallb is_space ws = true -> trim_right (m ++ ws) = trim_right m.
Proof.
  intros Hws. assert (Hnil : trim_right ws = []).
  { induction ws as [|c ws IH]; simpl in *; [reflexivity|].
    apply andb_true_iff in Hws as [Hc Hws]. rewrite (IH Hws), Hc. reflexivity. }
  induction m as [|a m IH]; simpl; [exact Hnil|].
  rewrite IH. reflexivity.
Qed.

Lemma trim_right_solid m b :
  is_space b = false -> trim_right (m ++ [b]) = m ++ [b].
Proof.
  intros Hb. induction m as [|a m IH]; simpl.
  - rewrite Hb. reflexivity.
  - rewrite IH. destruct (m ++ [b]) eqn:E; [|reflexivity].
    destruct m; discriminate.
Qed.

Lemma trim_right_split l :
  exists ws, l = trim_right l ++ ws /\ forallb is_space ws = true.
Proof.
  induction l as [|c l (ws & Hl & Hws)]; simpl.
  - exists []. auto.
  - destruct (trim_right l) as [|a r] eqn:E.
    + destruct (is_space c) eqn:Hc.
      * exists (c :: ws). simpl in *. subst l. rewrite Hc, Hws. split; reflexivity.
      * exists ws. simpl in *. subst l. split; [reflexivity | exact Hws].
    + exists ws. split; [|exact Hws].
      simpl. f_equal. exact Hl.
Qed.

Lemma ends_solid_cons c c' target :
  ends_solid (c :: c' :: target) = ends_solid (c' :: target).
Proof.
  unfold ends_solid. simpl.
  destruct (rev target) as [|x r]; reflexivity.
Qed.

Lemma ci_eq_solid_end target m :
  ends_solid target = true -> ci_eq target m = true ->
  exists m' b, m = m' ++ [b] /\ is_space b = false.
Proof.
  revert m. induction target as [|c target IH]; intros m Hs Hm.
  - discriminate Hs.
  - simpl in Hm. apply existsb_exists in Hm as (m0 & Hin & H).
    apply andb_true_iff in H as [Hp H].
    rewrite (is_prefix_split _ _ Hp).
    destruct target as [|c' target].
    + simpl in H. destruct (skipn (length m0) m); [|discriminate].
      rewrite app_nil_r. unfold ends_solid in Hs. simpl in Hs.
      rewrite forallb_forall in Hs. specialize (Hs m0 Hin).
      destruct (rev m0) as [|b r] eqn:E; [discriminate|].
      exists (rev r), b. split.
      * rewrite <- (rev_involutive m0), E. reflexivity.
      * apply negb_true_iff. exact Hs.
    + rewrite ends_solid_cons in Hs.
      destruct (IH _ Hs H) as (m' & b & Hm' & Hb).
      exists (m0 ++ m'), b. rewrite Hm', app_assoc. auto.
Qed.

(** Followed by whitespace only = equal once trimmed. *)
Lemma ci_then_space_trim target l :
  ends_solid target = true ->
  ci_then target (forallb is_space) l = ci_eq target (trim_right l).
Proof.
  intros Hs. apply eq_true_iff_eq. rewrite ci_then_split. split.
  - intros (m & ws & -> & Hm & Hws).
    rewrite trim_right_app_space by exact Hws.
    destruct (ci_eq_solid_end _ _ Hs Hm) as (m' & b & -> & Hb).
    rewrite trim_right_solid by exact Hb. exact Hm.
  - intros H. destruct (trim_right_split l) as (ws & Hl & Hws).
    exists (trim_right l), ws. auto.
Qed.

Lemma existsb_ext_in {A} (f g : A -> bool) (l : list A) :
  (forall x, In x l -> f x = g x) -> existsb f l = existsb g l.
Proof.
  induction l as [|x l IH]; intros H; simpl; [reflexivity|].
  rewrite (H x (or_introl eq_refl)), IH; [reflexivity|].
  intros y Hy. apply H. right. exact Hy.
Qed.

Lemma is_prefix_first_line m post :
  no_newline m = true -> is_prefix m (first_line post) = is_prefix m post.
Proof.
  revert post. induction m as [|a m IH]; intros post Hm; [reflexivity|].
  simpl in Hm. apply andb_true_iff in Hm as [Ha Hm].
  apply negb_true_iff in Ha.
  destruct post as [|b post]; simpl; [reflexivity|].
  destruct (Ascii.eqb b newline) eqn:Hb; simpl.
  - apply Ascii.eqb_eq in Hb. subst b. rewrite Ha. reflexivity.
  - rewrite IH by exact Hm. reflexivity.
Qed.

Lemma first_line_skipn m post :
  no_newline m = true -> is_prefix m post = true ->
  skipn (length m) (first_line post) = first_line (skipn (length m) post).
Proof.
  revert post. induction m as [|a m IH]; intros post Hm Hp; [reflexivity|].
  simpl in Hm. apply andb_true_iff in Hm as [Ha Hm].
  apply negb_true_iff in Ha.
  destruct post as [|b post]; simpl in Hp; [discriminate|].
  apply andb_true_iff in Hp as [Hab Hp].
  apply Ascii.eqb_eq in Hab. subst b. simpl. rewrite Ha. simpl.
  apply IH; assumption.
Qed.

(** A command without newline is looked for in the first line only. *)
Lemma ci_then_first_line target (k k' : text -> bool) :
  newline_free target = true ->
  (forall r, k r = k' (first_line r)) ->
  forall post, ci_then target k post = ci_then target k' (first_line post).
Proof.
  intros Hn Hk. induction target as [|c target IH]; intros post; simpl.
  - apply Hk.
  - simpl in Hn. apply andb_true_iff in Hn as [Hc Hn].
    rewrite forallb_forall in Hc.
    apply existsb_ext_in. intros m Hin.
    rewrite is_prefix_first_line by (apply Hc, Hin).
    destruct (is_prefix m post) eqn:Hp; [|reflexivity]. simpl.
    rewrite first_line_skipn by (try apply Hc; assumption).
    apply IH, Hn.
Qed.

Lemma lines_head t : exists ls, lines t = first_line t :: ls.
Proof.
  induction t as [|c t (ls & IH)]; simpl.
  - exists []. reflexivity.
  - destruct (Ascii.eqb c newline).
    + exists (lines t). reflexivity.
    + rewrite IH. exists ls. reflexivity.
Qed.

(** The cursors at the beginning of a line are the lines. *)
Lemma existsb_cursors (g : text -> bool) pre post :
  existsb (fun p => at_bol p && g (first_line (snd p))) (cursors pre post)
  = if at_bol (pre, post) then existsb g (lines post)
    else existsb g (tl (lines post)).
Proof.
  revert pre. induction post as [|c post IH]; intros pre.
  - simpl. destruct (at_bol (pre, [])); reflexivity.
  - cbn [cursors existsb snd]. rewrite IH.
    change (at_bol (c :: pre, post)) with (Ascii.eqb c newline).
    change (at_bol (pre, c :: post)) with (at_bol (pre, post)).
    destruct (lines_head post) as (ls & Hls).
    cbn [lines first_line]. rewrite Hls.
    destruct (Ascii.eqb c newline); destruct (at_bol (pre, post)); reflexivity.
Qed.

Lemma match_text_lines r (g : text -> bool) :
  (forall pre post, matches_at r (pre, post) = g (first_line post)) ->
  forall t, match_text (Concat BeginLine r) t = existsb g (lines t).
Proof.
  intros Hr t. unfold match_text.
  rewrite <- (existsb_cursors g [] t : _ = existsb g (lines t)).
  apply existsb_ext. intros [pre post].
  rewrite matches_begin_line, Hr. reflexivity.
Qed.

End LineFacts.

(** ** The two patterns, line by line *)

Lemma cancel_at pre post :
  matches_at (Concat (lit "/lgtm cancel") (Concat (StarClass is_space) EndLine))
    (pre, post)
  = is_cancel_line (first_line post).
Proof.
  unfold lit, is_cancel_line, line_is.
  rewrite (matches_literals _ _ _ matches_space_eol).
  rewrite (ci_then_first_line _ _ (forallb is_space)) by reflexivity.
  apply ci_then_space_trim. reflexivity.
Qed.

Lemma approve_at pre post :
  matches_at
    (Concat (lit "/lgtm")
       (Concat (Quest (lit " no-issue")) (Concat (StarClass is_space) EndLine)))
    (pre, post)
  = is_approve_line (first_line post).
Proof.
  unfold lit, is_approve_line, line_is.
  set (kT := fun r : text => forallb is_space (first_line r)).
  rewrite (matches_literals _ _
             (fun r => ci_then (list_ascii_of_string " no-issue") kT r || kT r)).
  - rewrite ci_then_orb, <- ci_then_app.
    rewrite !(ci_then_first_line _ kT (forallb is_space)) by reflexivity.
    rewrite !ci_then_space_trim by reflexivity.
    apply orb_comm.
  - intros pre' post'. rewrite matches_quest.
    rewrite (matches_literals _ _ _ matches_space_eol).
    rewrite matches_space_eol. reflexivity.
Qed.

Lemma lgtmRe_lines body : MatchString lgtmRe body = has_approve_line body.
Proof. apply (match_text_lines _ _ approve_at). Qed.

Lemma lgtmCancelRe_lines body :
  MatchString lgtmCancelRe body = has_cancel_line body.
Proof. apply (match_text_lines _ _ cancel_at). Qed.

(** ** A line is one command at most *)

Lemma head_differs_prefix m1 m2 t :
  head_differs m1 m2 = true ->
  is_prefix m1 t = true -> is_prefix m2 t = true -> False.
Proof.
  destruct m1 as [|b1 m1], m2 as [|b2 m2]; simpl; try discriminate.
  destruct t as [|b t]; simpl; [discriminate|].
  intros Hd H1 H2.
  apply andb_true_iff in H1 as [H1 _]. apply andb_true_iff in H2 as [H2 _].
  apply Ascii.eqb_eq in H1, H2. subst b1 b2.
  rewrite Ascii.eqb_refl in Hd. discriminate Hd.
Qed.

Lemma head_differs_sym m1 m2 : head_differs m1 m2 = head_differs m2 m1.
Proof.
  destruct m1 as [|b1 m1], m2 as [|b2 m2]; simpl; try reflexivity.
  rewrite Ascii.eqb_sym. reflexivity.
Qed.

Lemma distinct_heads_unique ms m1 m2 t :
  distinct_heads ms = true -> In m1 ms -> In m2 ms ->
  is_prefix m1 t = true -> is_prefix m2 t = true -> m1 = m2.
Proof.
  induction ms as [|m ms IH]; simpl; [contradiction|].
  intros Hd H1 H2 P1 P2. apply andb_true_iff in Hd as [Hm Hd].
  rewrite forallb_forall in Hm.
  destruct H1 as [<- | H1], H2 as [<- | H2].
  - reflexivity.
  - exfalso. apply (head_differs_prefix m m2 t); auto.
  - exfalso. apply (head_differs_prefix m1 m t); auto.
    rewrite head_differs_sym. auto.
  - apply IH; assumption.
Qed.

(** Once a prefix of the line is [target] up to case, no other prefix
    is. *)
Lemma ci_then_after target (k : text -> bool) m ws :
  deterministic target = true -> ci_eq target m = true ->
  ci_then target k (m ++ ws) = k ws.
Proof.
  revert m. induction target as [|c target IH]; intros m Hd Hm.
  - destruct m; [reflexivity | discriminate Hm].
  - simpl in Hd. apply andb_true_iff in Hd as [Hc Hd].
    simpl in Hm. apply existsb_exists in Hm as (m0 & Hin & H).
    apply andb_true_iff in H as [Hp Hm'].
    rewrite (is_prefix_split _ _ Hp), <- app_assoc.
    apply eq_true_iff_eq. cbn [ci_then]. rewrite existsb_exists. split.
    + intros (mm & Hmm & H). apply andb_true_iff in H as [Hpm H].
      assert (mm = m0) as ->.
      { apply (distinct_heads_unique (fold_orbit c) mm m0
                 (m0 ++ skipn (length m0) m ++ ws)); auto.
        apply is_prefix_app. }
      rewrite skipn_length_app, IH in H by assumption. exact H.
    + intros Hk. exists m0. split; [exact Hin|].
      rewrite is_prefix_app, skipn_length_app, IH by assumption. exact Hk.
Qed.

Lemma ci_then_conflict c1 c2 t1 t2 (k1 k2 : text -> bool) l :
  disjoint_heads c1 c2 = true ->
  ci_then (c1 :: t1) k1 l = true -> ci_then (c2 :: t2) k2 l = true -> False.
Proof.
  unfold disjoint_heads. rewrite forallb_forall. intros Hd H1 H2.
  simpl in H1, H2.
  apply existsb_exists in H1 as (m1 & Hin1 & H1).
  apply existsb_exists in H2 as (m2 & Hin2 & H2).
  apply andb_true_iff in H1 as [P1 _]. apply andb_true_iff in H2 as [P2 _].
  specialize (Hd m1 Hin1). rewrite forallb_forall in Hd.
  apply (head_differs_prefix m1 m2 l); auto.
Qed.

Lemma approve_cancel_exclusive l :
  is_approve_line l = true -> is_cancel_line l = true -> False.
Proof.
  unfold is_approve_line, is_cancel_line, line_is.
  set (t := trim_right l). intros Ha Hc.
  rewrite ci_eq_then in Hc.
  apply orb_true_iff in Ha as [Ha | Ha].
  - change (list_ascii_of_string "/lgtm cancel")
      with (list_ascii_of_string "/lgtm" ++ list_ascii_of_string " cancel")
      in Hc.
    rewrite ci_then_app, <- (app_nil_r t) in Hc.
    rewrite ci_then_after in Hc by (reflexivity || exact Ha).
    discriminate Hc.
  - rewrite ci_eq_then in Ha.
    change (list_ascii_of_string "/lgtm cancel")
      with (list_ascii_of_string "/lgtm " ++ list_ascii_of_string "cancel")
      in Hc.
    change (list_ascii_of_string "/lgtm no-issue")
      with (list_ascii_of_string "/lgtm " ++ list_ascii_of_string "no-issue")
      in Ha.
    rewrite ci_then_app in Ha, Hc.
    apply ci_then_split in Ha as (m & ws & Ht & Hm & Hn).
    rewrite Ht, ci_then_after in Hc by (reflexivity || exact Hm).
    revert Hn Hc. apply ci_then_conflict. reflexivity.
Qed.

(** C2, amended: no line is recognized by both patterns, so a body that
    both patterns match has an approve line and a different cancel
    line, and a body of one line is matched by one pattern at most; a
    body that both patterns match is taken as an approve command. *)
Theorem patterns_exclusive_per_line :
  (forall l, is_approve_line l = true -> is_cancel_line l = false)
  /\ (forall body,
        MatchString lgtmRe body = true ->
        MatchString lgtmCancelRe body = true ->
        exists l1 l2,
          In l1 (lines (list_ascii_of_string body))
          /\ In l2 (lines (list_ascii_of_string body))
          /\ l1 <> l2
          /\ is_approve_line l1 = true /\ is_cancel_line l2 = true)
  /\ (forall body l,
        lines (list_ascii_of_string body) = [l] ->
        MatchString lgtmRe body && MatchString lgtmCancelRe body = false)
  /\ (forall body,
        MatchString lgtmRe body = true ->
        MatchString lgtmCancelRe body = true ->
        wantLGTM body = Some true).
Proof.
  assert (Hboth : forall body,
    MatchString lgtmRe body = true ->
    MatchString lgtmCancelRe body = true ->
    exists l1 l2,
      In l1 (lines (list_ascii_of_string body))
      /\ In l2 (lines (list_ascii_of_string body))
      /\ l1 <> l2
      /\ is_approve_line l1 = true /\ is_cancel_line l2 = true).
  { intros body Ha Hc. rewrite lgtmRe_lines in Ha.
    rewrite lgtmCancelRe_lines in Hc.
    apply existsb_exists in Ha as (l1 & Hin1 & Ha).
    apply existsb_exists in Hc as (l2 & Hin2 & Hc).
    exists l1, l2. repeat split; auto.
    intros ->. exact (approve_cancel_exclusive l2 Ha Hc). }
  split.
  { intros l Ha. destruct (is_cancel_line l) eqn:Hc; [|reflexivity].
    destruct (approve_cancel_exclusive l Ha Hc). }
  split; [exact Hboth|].
  split; [|intros body Ha _; unfold wantLGTM; rewrite Ha; reflexivity].
  intros body l Hl.
  destruct (MatchString lgtmRe body) eqn:Ha; [|reflexivity].
  destruct (MatchString lgtmCancelRe body) eqn:Hc; [|reflexivity].
  destruct (Hboth body Ha Hc) as (l1 & l2 & H1 & H2 & Hne & _).
  rewrite Hl in H1, H2.
  destruct H1 as [<- | []], H2 as [<- | []]. contradiction.
Qed.

(** ** Runs of programs *)

Section RunFacts.

Context {W : Type} (gc : client W).

Lemma run_bind {A B : Type} (p : prog A) (f : A -> prog B) (w : W) :
  run gc (bind p f) w =
  let '(a, w1, t1) := run gc p w in
  let '(b, w2, t2) := run gc (f a) w1 in
  (b, w2, t1 ++ t2).
Proof.
  revert w. induction p as [a | X c k IH]; intros w; simpl.
  - destruct (run gc (f a) w) as [[b w2] t2]. reflexivity.
  - destruct (gc X c w) as [x w1]. rewrite IH.
    destruct (run gc (k x) w1) as [[a w2] t1].
    destruct (run gc (f a) w2) as [[b w3] t2]. reflexivity.
Qed.

Lemma count_app f (t1 t2 : list event) :
  count f (t1 ++ t2) = count f t1 + count f t2.
Proof.
  induction t1 as [|ev t1 IH]; simpl; [reflexivity|].
  rewrite IH. lia.
Qed.

Lemma calls_app (t1 t2 : list event) : calls (t1 ++ t2) = calls t1 ++ calls t2.
Proof. apply List.filter_app. Qed.

End RunFacts.

(** Make the next call of the run, naming what the client returns. *)
Ltac next_call gc :=
  match goal with
  | |- context [gc ?X ?c ?w] =>
      let x := fresh "x" in
      let w' := fresh "w" in
      let E := fresh "E" in
      destruct (gc X c w) as [x w'] eqn:E
  end.

(** ** The synchronize handler *)

(** C8: a merged pull request or an action other than synchronize makes
    no call and returns no error; otherwise there is one call of
    RemoveLabel, and: when it fails with LabelNotFound nothing is posted
    and no error is returned; when it fails otherwise the error is
    returned inside the error of the handler and nothing is posted; when
    it succeeds the fixed notification is posted once, and the handler
    returns what posting returns. *)
Theorem handlePullRequest_cases {W : Type} (gc : client W)
    (pe : github.PullRequestEvent.t) (w : W) :
  let pr := github.PullRequestEvent.PullRequest pe in
  let org :=
    github.User.Login
      (github.Repo.Owner
         (github.PullRequestBranch.Repo (github.PullRequest.Base pr))) in
  let repo :=
    github.Repo.Name
      (github.PullRequestBranch.Repo (github.PullRequest.Base pr)) in
  let number := github.PullRequest.Number pr in
  let remove := RemoveLabel org repo number lgtmLabel in
  let notify := CreateComment org repo number removeLGTMLabelNoti in
  let '(r, w', t) := run gc (handlePullRequest pe) w in
  (github.PullRequest.Merged pr = true
   \/ github.PullRequestEvent.Action pe <> github.PullRequestActionSynchronize ->
   r = None /\ w' = w /\ t = [])
  /\ (github.PullRequest.Merged pr = false ->
      github.PullRequestEvent.Action pe = github.PullRequestActionSynchronize ->
      exists x,
        count is_RemoveLabel t = 1 /\
        match x with
        | Some err =>
            calls t = [Ev remove x] /\
            r = (if isLabelNotFound err then None
                 else Some (Errorf "failed removing lgtm label: %v"
                              [ArgError err]))
        | None => calls t = [Ev remove x; Ev notify r]
        end).
Proof.
  intros pr org repo number remove notify.
  unfold handlePullRequest. fold pr. fold org. fold repo. fold number.
  destruct (github.PullRequest.Merged pr) eqn:Hm.
  { simpl. split; [auto | discriminate]. }
  destruct (String.eqb_spec (github.PullRequestEvent.Action pe)
              github.PullRequestActionSynchronize) as [Ha | Ha]; simpl.
  2:{ split; [auto | intros _ Hs; contradiction]. }
  next_call gc. destruct x as [err|].
  - destruct (isLabelNotFound err) eqn:Hl; simpl.
    + split; [intros [Hx | Hx]; [discriminate | contradiction]|].
      intros _ _. exists (Some err). rewrite Hl. auto.
    + split; [intros [Hx | Hx]; [discriminate | contradiction]|].
      intros _ _. exists (Some err). rewrite Hl. auto.
  - simpl. next_call gc. next_call gc.
    split; [intros [Hx | Hx]; [discriminate | contradiction]|].
    intros _ _. exists None. auto.
Qed.

(** ** The comment handler *)

Arguments skipCollaborators : simpl never.
Arguments isAssignee : simpl never.
Arguments isAuthor : simpl never.
Arguments loadReviewers : simpl never.
Arguments hasLabel : simpl never.
Arguments wantLGTM : simpl never.
Arguments reply : simpl never.

Section HandleFacts.

Context {imports : Imports} {W : Type} (gc : client W).

Lemma labels_fetched_app t1 t2 :
  labels_fetched (t1 ++ t2)
  = match labels_fetched t1 with
    | Some x => Some x
    | None => labels_fetched t2
    end.
Proof.
  induction t1 as [|[X c x] t1 IH]; simpl; [reflexivity|].
  destruct c; auto.
Qed.

Lemma existsb_false_app (f : event -> bool) t1 t2 :
  existsb f t1 = false -> existsb f t2 = false -> existsb f (t1 ++ t2) = false.
Proof. intros H1 H2. rewrite existsb_app, H1, H2. reflexivity. Qed.

(** The events of the clean-up are of no other kind. *)
Lemma cleanup_quiet (t : list event) :
  forallb cleanup_event t = true ->
  labels_fetched t = None /\ owners_loaded t = None /\ changes_fetched t = None
  /\ count is_AddLabel t = 0 /\ count is_RemoveLabel t = 0
  /\ count is_CreateComment t = 0 /\ existsb authorization_call t = false.
Proof.
  induction t as [|[X c x] t IH]; simpl; [auto 10|].
  intros H. apply andb_true_iff in H as [Hc Ht].
  destruct c; try discriminate Hc; simpl; auto.
Qed.

Lemma deleteNotifications_events org repo number botname comments w :
  forallb cleanup_event
    (snd (run gc (deleteNotifications org repo number botname comments) w))
  = true.
Proof.
  revert w. induction comments as [|comment comments IH]; intros w.
  - reflexivity.
  - cbn [deleteNotifications]. rewrite run_bind.
    assert (Hrest : forall w1 (t1 : list event),
      forallb cleanup_event t1 = true ->
      forallb cleanup_event
        (snd (let '(b, w2, t2) :=
                run gc (deleteNotifications org repo number botname comments) w1
              in (b, w2, t1 ++ t2))) = true).
    { intros w1 t1 H1. specialize (IH w1).
      destruct (run gc (deleteNotifications org repo number botname comments) w1)
        as [[u2 w2] t2].
      cbn [snd] in *. rewrite forallb_app, IH, H1. reflexivity. }
    destruct (_ && _); simpl.
    + next_call gc. destruct x as [err|]; simpl.
      * next_call gc. apply (Hrest _ [_; _]). reflexivity.
      * apply (Hrest _ [_]). reflexivity.
    + apply (Hrest _ []). reflexivity.
Qed.

Lemma deleteStaleNotifications_events org repo number w :
  forallb cleanup_event
    (snd (run gc (deleteStaleNotifications org repo number) w)) = true.
Proof.
  unfold deleteStaleNotifications. simpl.
  next_call gc. destruct x as [botname [err|]]; simpl; [next_call gc|];
    next_call gc.
  all: match goal with
       | E : gc _ (ListIssueComments _ _ _) _ = (?x, _) |- _ =>
           destruct x as [comments [err'|]]; simpl; [next_call gc|]
       end.
  all: try match goal with
       | |- context [run gc (deleteNotifications ?o ?r ?n ?b ?cs) ?w1] =>
           pose proof (deleteNotifications_events o r n b cs w1) as Hq;
           destruct (run gc (deleteNotifications o r n b cs) w1) as [[u w'] td]
       end.
  all: simpl; first [exact Hq | reflexivity].
Qed.

Opaque deleteStaleNotifications.

(** The second half of [handle], call by call. *)
Lemma handle_label_run e want w :
  let org :=
    github.User.Login (github.Repo.Owner (github.GenericCommentEvent.Repo e)) in
  let repo := github.Repo.Name (github.GenericCommentEvent.Repo e) in
  let number := github.GenericCommentEvent.Number e in
  let '(r, w', t) := run gc (handle_label e want) w in
  exists x t',
    t = Ev (GetIssueLabels org repo number) x :: t'
    /\ labels_fetched t = Some x
    /\ existsb authorization_call t = false
    /\ count is_CreateComment t = 0
    /\ match snd x with
       | Some err =>
           exists t'',
             t' = Ev (Log ErrorLevel (Some err)
                        "Failed to get the labels on %s/%s#%d."
                        [ArgString org; ArgString repo; ArgInt number]) tt
                  :: t''
       | None => True
       end
    /\ let has := hasLabel (fst x) in
       count is_AddLabel t = (if negb has && want then 1 else 0)
       /\ count is_RemoveLabel t = (if has && negb want then 1 else 0)
       /\ (has = want -> r = None /\ calls t = [Ev (GetIssueLabels org repo number) x])
       /\ (has = true -> want = false ->
           calls t = [Ev (GetIssueLabels org repo number) x;
                      Ev (RemoveLabel org repo number lgtmLabel) r])
       /\ (has = false -> want = true ->
           exists r' t'',
             calls t = Ev (GetIssueLabels org repo number) x
                       :: Ev (AddLabel org repo number lgtmLabel) r' :: t''
             /\ (r' <> None -> r = r' /\ t'' = [])
             /\ (r' = None -> r = None)).
Proof.
  intros org repo number. unfold handle_label.
  fold org. fold repo. fold number. simpl.
  next_call gc.
  destruct x as [labels [err|]]; simpl; [next_call gc|];
    destruct (hasLabel labels) eqn:Hh; simpl; destruct want; simpl.
  all: repeat next_call gc.
  all: try match goal with
       | E : gc _ (AddLabel _ _ _ _) _ = (?x, _) |- _ =>
           destruct x as [err'|]; simpl
       end.
  all: try (rewrite run_bind;
    match goal with
    | |- context [run gc (deleteStaleNotifications ?o ?r ?n) ?w1] =>
        pose proof (deleteStaleNotifications_events o r n w1) as Hq;
        destruct (run gc (deleteStaleNotifications o r n) w1) as [[u w'] td];
        cbn [snd] in Hq; apply cleanup_quiet in Hq;
        destruct Hq as (Hq1 & Hq2 & Hq3 & Hq4 & Hq5 & Hq6 & Hq7)
    end; simpl; rewrite app_nil_r).
  all: repeat match goal with u : unit |- _ => destruct u end.
  all: eexists _, _; split; [reflexivity|]; simpl.
  all: rewrite ?Hq1, ?Hq4, ?Hq5, ?Hq6, ?Hq7, ?Hh; simpl.
  all: repeat split; eauto; try discriminate; try congruence.
  all: intros _ _; eexists _, _; split; [reflexivity|].
  all: split; [intros Hn; try congruence; split; reflexivity | intros Hn; congruence].
Qed.

Transparent deleteStaleNotifications.

(** Run to the next branching point: make the pending call, or split on
    the answer the program inspects. *)
Ltac run_step :=
  simpl;
  first
    [ next_call gc
    | match goal with
      | |- context [match ?x with _ => _ end] => is_var x; destruct x
      | |- context [bool_decide ?P] => destruct (bool_decide P) eqn:?
      end ].

(** The first half of [handle], path by path. *)
Lemma handle_authorization_run config e want w :
  let org :=
    github.User.Login (github.Repo.Owner (github.GenericCommentEvent.Repo e)) in
  let repo := github.Repo.Name (github.GenericCommentEvent.Repo e) in
  let number := github.GenericCommentEvent.Number e in
  let login := github.User.Login (github.GenericCommentEvent.User e) in
  let '(a, w', t) := run gc (handle_authorization config e want) w in
  labels_fetched t = None
  /\ count is_AddLabel t = 0
  /\ count is_RemoveLabel t = 0
  /\ (existsb is_AssignIssue t = true ->
      isAuthor e = false /\ isAssignee e = false
      /\ skipCollaborators config org repo = false)
  /\ (isAuthor e = true -> want = true ->
      exists r,
        a = Some r /\ calls t = [Ev (reply e "you cannot LGTM your own PR.") r])
  /\ (isAuthor e = true -> want = false -> a = None /\ t = [])
  /\ (isAuthor e = false -> isAssignee e = true ->
      skipCollaborators config org repo = false -> a = None /\ t = [])
  /\ (forall ro changes,
        owners_loaded t = Some (Ok ro) ->
        changes_fetched t = Some (Ok changes) ->
        isAuthor e = false /\ skipCollaborators config org repo = true
        /\ exists pr,
             let checks :=
               [Ev (GetPullRequest org repo number) (Ok pr);
                Ev (LoadRepoOwners org repo
                      (github.PullRequestBranch.Ref (github.PullRequest.Base pr)))
                   (Ok ro);
                Ev (GetPullRequestChanges org repo number) (Ok changes)] in
             if bool_decide
                  (NormLogin login
                   ∈ loadReviewers ro
                       (map github.PullRequestChange.Filename changes))
             then a = None /\ calls t = checks
             else exists r,
                 a = Some r
                 /\ calls t
                    = checks
                      ++ [Ev (reply e
                                "adding LGTM is restricted to approvers and reviewers in OWNERS files.")
                            r]).
Proof.
  intros org repo number login. unfold handle_authorization.
  fold org. fold repo. fold number. fold login. cbv zeta.
  destruct (isAuthor e) eqn:Ha; destruct want;
    destruct (isAssignee e) eqn:Hs;
    destruct (skipCollaborators config org repo) eqn:Hk.
  all: repeat run_step.
  all: unfold reply; simpl.
  all: repeat match goal with u : unit |- _ => destruct u end.
  all: repeat split; try discriminate; try congruence; eauto.
  all: simplify_eq.
  all: eexists; rewrite Heqb; eauto.
Qed.

(** The look-up of the owners, call by call: for a commenter who is not
    the author, on a repository in the skip list, assigned or not. *)
Lemma handle_authorization_owners config e want w :
  let org :=
    github.User.Login (github.Repo.Owner (github.GenericCommentEvent.Repo e)) in
  let repo := github.Repo.Name (github.GenericCommentEvent.Repo e) in
  let number := github.GenericCommentEvent.Number e in
  let login := github.User.Login (github.GenericCommentEvent.User e) in
  isAuthor e = false ->
  skipCollaborators config org repo = true ->
  let '(a, w', t) := run gc (handle_authorization config e want) w in
  exists p t1,
    calls t = Ev (GetPullRequest org repo number) p :: t1
    /\ match p with
       | Err err => a = Some (Some err) /\ t1 = []
       | Ok pr =>
           exists o t2,
             t1 = Ev (LoadRepoOwners org repo
                        (github.PullRequestBranch.Ref
                           (github.PullRequest.Base pr))) o :: t2
             /\ match o with
                | Err err => a = Some (Some err) /\ t2 = []
                | Ok ro =>
                    exists c t3,
                      t2 = Ev (GetPullRequestChanges org repo number) c :: t3
                      /\ match c with
                         | Err _ =>
                             a = Some (Some (Errorf
                                   "cannot get PR changes for %s/%s#%d"
                                   [ArgString org; ArgString repo;
                                    ArgInt number]))
                             /\ t3 = []
                         | Ok changes =>
                             if bool_decide
                                  (NormLogin login
                                   ∈ loadReviewers ro
                                       (map github.PullRequestChange.Filename
                                          changes))
                             then a = None /\ t3 = []
                             else exists r,
                                 a = Some r
                                 /\ t3 = [Ev (reply e
                                              "adding LGTM is restricted to approvers and reviewers in OWNERS files.")
                                           r]
                         end
                end
       end.
Proof.
  intros org repo number login Hau Hsk. unfold handle_authorization.
  fold org. fold repo. fold number. fold login. cbv zeta.
  rewrite Hau, Hsk. destruct want; destruct (isAssignee e); cbn [negb andb].
  all: repeat run_step.
  all: unfold reply; simpl.
  all: repeat match goal with u : unit |- _ => destruct u end.
  all: eexists _, _; split; [reflexivity|]; cbn beta iota.
  all: try (split; reflexivity).
  all: eexists _, _; split; [reflexivity|]; cbn beta iota.
  all: try (split; reflexivity).
  all: eexists _, _; split; [reflexivity|]; cbn beta iota.
  all: try (split; reflexivity).
  all: rewrite Heqb; try (split; reflexivity).
  all: eexists; split; reflexivity.
Qed.

Lemma run_handle config e w :
  run gc (handle config e) w =
  if considered e then
    match wantLGTM (github.GenericCommentEvent.Body e) with
    | None => (None, w, [])
    | Some want =>
        let '(a, w1, t1) := run gc (handle_authorization config e want) w in
        match a with
        | Some r => (r, w1, t1)
        | None =>
            let '(r, w2, t2) := run gc (handle_label e want) w1 in
            (r, w2, t1 ++ t2)
        end
    end
  else (None, w, []).
Proof.
  unfold handle, considered.
  destruct (github.GenericCommentEvent.IsPR e); [|reflexivity].
  destruct (String.eqb (github.GenericCommentEvent.IssueState e) "open");
    [|reflexivity].
  destruct (String.eqb (github.GenericCommentEvent.Action e)
              github.GenericCommentActionCreated); [|reflexivity].
  cbn [negb orb andb].
  destruct (wantLGTM (github.GenericCommentEvent.Body e)) as [want|];
    [|reflexivity].
  rewrite run_bind.
  destruct (run gc (handle_authorization config e want) w) as [[a w1] t1].
  destruct a as [r|].
  - simpl. rewrite app_nil_r. reflexivity.
  - reflexivity.
Qed.

(** Take a run of [handle] apart: the guard, the command, and the two
    halves with what is known of each. *)
Ltac split_handle config e w :=
  rewrite (run_handle config e w);
  destruct (considered e) eqn:Hcons;
  [ destruct (wantLGTM (github.GenericCommentEvent.Body e)) as [want|] eqn:Hwant;
    [ let Ha := fresh "Hauth" in
      pose proof (handle_authorization_run config e want w) as Ha;
      cbv zeta in Ha;
      destruct (run gc (handle_authorization config e want) w) as [[a w1] t1];
      destruct Ha as (Ha1 & Ha2 & Ha3 & Ha4 & Ha5 & Ha6 & Ha7 & Ha8);
      destruct a as [ret|];
      [ | let Hl := fresh "Hlabel" in
          pose proof (handle_label_run e want w1) as Hl;
          cbv zeta in Hl;
          destruct (run gc (handle_label e want) w1) as [[r w2] t2];
          destruct Hl as (x & t' & Hl1 & Hl2 & Hl3 & Hl4 & Hl5 & Hl6 & Hl7 & Hl8
                          & Hl9 & Hl10) ]
    | ]
  | ].

(** ** Label reconciliation *)

(** C6: in every run of the comment handler the label is added at most
    once, removed at most once and never both; it is added only when the
    run saw it absent and the command is approve, removed only when the
    run saw it present and the command is cancel; and when the label as
    seen is already as the command wants it, the run that fetched the
    labels makes no AddLabel or RemoveLabel call and returns no error. *)
Theorem label_reconciliation config e w :
  let '(r, w', t) := run gc (handle config e) w in
  count is_AddLabel t + count is_RemoveLabel t <= 1
  /\ (count is_AddLabel t = 1 ->
      observed_label t = false
      /\ wantLGTM (github.GenericCommentEvent.Body e) = Some true)
  /\ (count is_RemoveLabel t = 1 ->
      observed_label t = true
      /\ wantLGTM (github.GenericCommentEvent.Body e) = Some false)
  /\ (labels_fetched t <> None ->
      wantLGTM (github.GenericCommentEvent.Body e) = Some (observed_label t) ->
      count is_AddLabel t = 0 /\ count is_RemoveLabel t = 0 /\ r = None).
Proof.
  split_handle config e w.
  - (* the handler returned while authorizing *)
    rewrite Ha2, Ha3. repeat split; try lia; try discriminate; congruence.
  - (* the handler went on to the label *)
    unfold observed_label.
    rewrite !count_app, labels_fetched_app, Ha1, Ha2, Ha3, Hl2.
    cbn [Nat.add]. rewrite Hl6, Hl7.
    destruct x as [labels oerr]; cbn [fst snd] in *;
      destruct (hasLabel labels);
      destruct want; simpl; repeat split; try lia; try discriminate;
      try reflexivity; try (apply Hl8; reflexivity); congruence.
  - simpl. repeat split; try lia; try discriminate; congruence.
  - simpl. repeat split; try lia; try discriminate; congruence.
Qed.

Lemma isAssignee_In e :
  isAssignee e = true <->
  In (github.User.Login (github.GenericCommentEvent.User e))
     (map github.User.Login (github.GenericCommentEvent.Assignees e)).
Proof.
  unfold isAssignee. rewrite existsb_exists, in_map_iff. split.
  - intros (a & Hin & Heq). apply String.eqb_eq in Heq. eauto.
  - intros (a & Heq & Hin). exists a. split; [exact Hin|].
    apply String.eqb_eq. exact Heq.
Qed.

Lemma loadReviewers_union ro filenames :
  loadReviewers ro filenames = owners_of ro filenames.
Proof.
  unfold loadReviewers, owners_of.
  assert (H : forall acc : gset string,
    fold_left
      (fun reviewers filename =>
         reviewers ∪ repoowners.Approvers ro filename
                   ∪ repoowners.Reviewers ro filename) filenames acc
    = acc ∪ ⋃ (map (fun filename =>
                      repoowners.Approvers ro filename
                      ∪ repoowners.Reviewers ro filename) filenames)).
  { induction filenames as [|f fs IH]; intros acc; simpl.
    - rewrite (right_id_L ∅ (∪)). reflexivity.
    - rewrite IH, <- !(assoc_L (∪)). reflexivity. }
  rewrite H. apply (left_id_L ∅ (∪)).
Qed.

Lemma no_authorization_call t :
  existsb authorization_call t = false ->
  owners_loaded t = None /\ changes_fetched t = None
  /\ existsb is_AssignIssue t = false.
Proof.
  induction t as [|[X c x] t IH]; simpl; [auto|].
  destruct c; simpl; try discriminate; auto.
Qed.

Lemma owners_loaded_app t1 t2 :
  owners_loaded (t1 ++ t2)
  = match owners_loaded t1 with
    | Some x => Some x
    | None => owners_loaded t2
    end.
Proof.
  induction t1 as [|[X c x] t1 IH]; simpl; [reflexivity|].
  destruct c; auto.
Qed.

Lemma changes_fetched_app t1 t2 :
  changes_fetched (t1 ++ t2)
  = match changes_fetched t1 with
    | Some x => Some x
    | None => changes_fetched t2
    end.
Proof.
  induction t1 as [|[X c x] t1 IH]; simpl; [reflexivity|].
  destruct c; auto.
Qed.

Lemma In_calls ev t : In ev (calls t) -> In ev t.
Proof. unfold calls. rewrite List.filter_In. tauto. Qed.

(** C7, amended: when the fetch of the labels returns an error the
    handler logs it and goes on with the labels that came with the
    error.  When the label is not among them, as when nothing comes with
    the error, an approve command makes the AddLabel call all the same
    and the handler returns what that call returns, and a cancel command
    changes nothing and returns no error.  When the label is among them,
    an approve command changes nothing and returns no error, and a
    cancel command removes the label. *)
Theorem label_fetch_failure config e w :
  let org :=
    github.User.Login (github.Repo.Owner (github.GenericCommentEvent.Repo e)) in
  let repo := github.Repo.Name (github.GenericCommentEvent.Repo e) in
  let number := github.GenericCommentEvent.Number e in
  let '(r, w', t) := run gc (handle config e) w in
  forall labels err,
    labels_fetched t = Some (labels, Some err) ->
    In (Ev (Log ErrorLevel (Some err) "Failed to get the labels on %s/%s#%d."
              [ArgString org; ArgString repo; ArgInt number]) tt) t
    /\ observed_label t = hasLabel labels
    /\ (hasLabel labels = false ->
        wantLGTM (github.GenericCommentEvent.Body e) = Some true ->
        count is_AddLabel t = 1
        /\ exists r',
            In (Ev (AddLabel org repo number lgtmLabel) r') t
            /\ (r' <> None -> r = r') /\ (r' = None -> r = None))
    /\ (hasLabel labels = false ->
        wantLGTM (github.GenericCommentEvent.Body e) = Some false ->
        count is_AddLabel t = 0 /\ count is_RemoveLabel t = 0 /\ r = None)
    /\ (hasLabel labels = true ->
        wantLGTM (github.GenericCommentEvent.Body e) = Some true ->
        count is_AddLabel t = 0 /\ count is_RemoveLabel t = 0 /\ r = None)
    /\ (hasLabel labels = true ->
        wantLGTM (github.GenericCommentEvent.Body e) = Some false ->
        count is_AddLabel t = 0 /\ count is_RemoveLabel t = 1
        /\ In (Ev (RemoveLabel org repo number lgtmLabel) r) t).
Proof.
  intros org repo number. split_handle config e w;
    try (intros labels err Hf; simpl in Hf; congruence).
  intros labels err Hf. unfold observed_label.
  rewrite labels_fetched_app, Ha1, Hl2 in Hf.
  rewrite !count_app, labels_fetched_app, Ha1, Ha2, Ha3, Hl2, Hl6, Hl7.
  injection Hf as ->. cbn [fst snd] in *.
  destruct Hl5 as (t'' & Ht''). subst t' t2.
  split; [apply in_or_app; right; right; left; reflexivity|].
  split; [reflexivity|].
  split; [|split; [|split]]; intros Hh Hw; injection Hw as ->;
    rewrite Hh in *; cbn [negb andb Nat.add].
  - split; [reflexivity|].
    destruct (Hl10 eq_refl eq_refl) as (r' & t3 & Hc & Hr1 & Hr2).
    exists r'. split; [|split; [intros Hn; apply (Hr1 Hn) | exact Hr2]].
    apply in_or_app. right. apply In_calls. rewrite Hc.
    right. left. reflexivity.
  - repeat split. apply Hl8. reflexivity.
  - repeat split. apply Hl8. reflexivity.
  - split; [reflexivity|]. split; [reflexivity|].
    apply in_or_app. right. apply In_calls. rewrite (Hl9 eq_refl eq_refl).
    right. left. reflexivity.
Qed.

(** ** Who may change the label *)

(** C3: when the author of the pull request comments an approve command
    on it, the handler makes one call, the comment that says so, and
    returns what that call returns: no label is fetched, added or
    removed, nobody is assigned and nothing is checked.  For an event
    the guard turns away the handler makes no call at all. *)
Theorem self_approval_rejected config e w :
  github.User.Login (github.GenericCommentEvent.User e)
  = github.User.Login (github.GenericCommentEvent.IssueAuthor e) ->
  wantLGTM (github.GenericCommentEvent.Body e) = Some true ->
  let '(r, w', t) := run gc (handle config e) w in
  (considered e = true ->
   calls t = [Ev (reply e "you cannot LGTM your own PR.") r])
  /\ (considered e = false -> t = [])
  /\ count is_AddLabel t = 0 /\ count is_RemoveLabel t = 0
  /\ existsb authorization_call t = false
  /\ labels_fetched t = None.
Proof.
  intros Hlogin Hw.
  assert (Hau : isAuthor e = true) by (apply String.eqb_eq, Hlogin).
  split_handle config e w; try discriminate.
  - injection Hw as ->.
    destruct (Ha5 Hau eq_refl) as (r & Hr & Hc). injection Hr as ->.
    assert (Hq : existsb authorization_call t1 = false).
    { destruct (existsb authorization_call t1) eqn:Hex; [|reflexivity].
      apply existsb_exists in Hex as (ev & Hin & Hev).
      assert (Hin' : In ev (calls t1)).
      { unfold calls. apply List.filter_In. split; [exact Hin|].
        destruct ev as [X c x]. destruct c; try discriminate; reflexivity. }
      rewrite Hc in Hin'. destruct Hin' as [<- | []]. discriminate Hev. }
    repeat split; auto; discriminate.
  - injection Hw as ->.
    destruct (Ha5 Hau eq_refl) as (r0 & Hr & _). discriminate Hr.
  - simpl. repeat split; auto; discriminate.
Qed.

(** C4: when the author of the pull request comments a cancel command,
    whoever is assigned and whatever the configuration, the handler is
    the label half alone: its first call fetches the labels, and no call
    assigns, checks a collaborator or loads owners. *)
Theorem author_may_cancel config e w :
  considered e = true ->
  github.User.Login (github.GenericCommentEvent.User e)
  = github.User.Login (github.GenericCommentEvent.IssueAuthor e) ->
  wantLGTM (github.GenericCommentEvent.Body e) = Some false ->
  handle config e = handle_label e false
  /\ let '(r, w', t) := run gc (handle config e) w in
     existsb authorization_call t = false
     /\ exists x t',
         t = Ev (GetIssueLabels
                   (github.User.Login
                      (github.Repo.Owner (github.GenericCommentEvent.Repo e)))
                   (github.Repo.Name (github.GenericCommentEvent.Repo e))
                   (github.GenericCommentEvent.Number e)) x :: t'.
Proof.
  intros Hcons Hlogin Hw.
  assert (Hau : isAuthor e = true) by (apply String.eqb_eq, Hlogin).
  assert (Heq : handle config e = handle_label e false).
  { unfold handle. fold (considered e).
    unfold considered in Hcons.
    apply andb_true_iff in Hcons as [Hc Hact].
    apply andb_true_iff in Hc as [Hpr Hst].
    rewrite Hpr, Hst, Hact, Hw. cbn [negb orb].
    unfold handle_authorization. rewrite Hau. reflexivity. }
  split; [exact Heq|]. rewrite Heq.
  pose proof (handle_label_run e false w) as Hl. cbv zeta in Hl.
  destruct (run gc (handle_label e false) w) as [[r w2] t2].
  destruct Hl as (x & t' & Hl1 & _ & Hl3 & _). eauto.
Qed.

(** C10: a commenter who is not the author and whose login is, byte for
    byte, that of an assignee, on a repository not in the skip list, is
    authorized as is: the handler is the label half alone, with no
    AssignIssue and no IsCollaborator call.  And in every run, a call of
    AssignIssue is made only for a commenter who is not among the
    assignees. *)
Theorem assignee_is_authorized config e w :
  (forall want,
     considered e = true ->
     wantLGTM (github.GenericCommentEvent.Body e) = Some want ->
     github.User.Login (github.GenericCommentEvent.User e)
     <> github.User.Login (github.GenericCommentEvent.IssueAuthor e) ->
     In (github.User.Login (github.GenericCommentEvent.User e))
        (map github.User.Login (github.GenericCommentEvent.Assignees e)) ->
     skipCollaborators config
       (github.User.Login (github.Repo.Owner (github.GenericCommentEvent.Repo e)))
       (github.Repo.Name (github.GenericCommentEvent.Repo e)) = false ->
     handle config e = handle_label e want
     /\ let '(r, w', t) := run gc (handle config e) w in
        existsb authorization_call t = false
        /\ exists x t',
            t = Ev (GetIssueLabels
                      (github.User.Login
                         (github.Repo.Owner (github.GenericCommentEvent.Repo e)))
                      (github.Repo.Name (github.GenericCommentEvent.Repo e))
                      (github.GenericCommentEvent.Number e)) x :: t')
  /\ let '(r, w', t) := run gc (handle config e) w in
     (existsb is_AssignIssue t = true ->
      ~ In (github.User.Login (github.GenericCommentEvent.User e))
          (map github.User.Login (github.GenericCommentEvent.Assignees e))).
Proof.
  pose proof (isAssignee_In e) as Hass.
  split.
  - intros want Hcons Hw Hlogin Hin Hskip.
    assert (Hau : isAuthor e = false) by (apply String.eqb_neq, Hlogin).
    apply Hass in Hin.
    assert (Heq : handle config e = handle_label e want).
    { unfold handle. fold (considered e).
      unfold considered in Hcons.
      apply andb_true_iff in Hcons as [Hc Hact].
      apply andb_true_iff in Hc as [Hpr Hst].
      rewrite Hpr, Hst, Hact, Hw. cbn [negb orb].
      unfold handle_authorization. rewrite Hau, Hin, Hskip. reflexivity. }
    split; [exact Heq|]. rewrite Heq.
    pose proof (handle_label_run e want w) as Hl. cbv zeta in Hl.
    destruct (run gc (handle_label e want) w) as [[r w2] t2].
    destruct Hl as (x & t' & Hl1 & _ & Hl3 & _). eauto.
  - assert (Hsub : forall t, existsb authorization_call t = false ->
                             existsb is_AssignIssue t = false).
    { intros t Hq. destruct (existsb is_AssignIssue t) eqn:Hex; [|reflexivity].
      apply existsb_exists in Hex as (ev & Hin & Hev).
      assert (Hex : existsb authorization_call t = true).
      { apply existsb_exists. exists ev. split; [exact Hin|].
        destruct ev as [X c x]. destruct c; try discriminate; reflexivity. }
      congruence. }
    split_handle config e w; try discriminate.
    + intros Hex Hin. apply Hass in Hin.
      destruct (Ha4 Hex) as (_ & Hn & _). congruence.
    + rewrite existsb_app, (Hsub _ Hl3), orb_false_r.
      intros Hex Hin. apply Hass in Hin.
      destruct (Ha4 Hex) as (_ & Hn & _). congruence.
Qed.

(** C9: the set that ownership-based authorization looks the commenter
    up in is the union, over the changed files, of the approvers and the
    reviewers of the file.  For a command of a commenter who is not the
    author, on a repository in the skip list, the handler looks the
    owners up, whether the commenter is assigned or not: it fetches the
    pull request, loads the owners and fetches the changed files, and
    returns the error of the first of these that fails; with the three
    answers, a commenter whose normalized login is not in the union gets
    the denial as the last call, the handler returns what posting
    returns and the label is neither fetched, added nor removed; a
    commenter whose normalized login is in the union gets no reply, and
    the next call fetches the labels. *)
Theorem owners_authorization config e w :
  (forall ro filenames, loadReviewers ro filenames = owners_of ro filenames)
  /\ (forall ro filenames x,
     x ∈ loadReviewers ro filenames <->
     exists filename,
       In filename filenames
       /\ (x ∈ repoowners.Approvers ro filename
           \/ x ∈ repoowners.Reviewers ro filename))
  /\ let org :=
       github.User.Login
         (github.Repo.Owner (github.GenericCommentEvent.Repo e)) in
     let repo := github.Repo.Name (github.GenericCommentEvent.Repo e) in
     let number := github.GenericCommentEvent.Number e in
     let login := github.User.Login (github.GenericCommentEvent.User e) in
     forall want,
       considered e = true ->
       wantLGTM (github.GenericCommentEvent.Body e) = Some want ->
       login <> github.User.Login (github.GenericCommentEvent.IssueAuthor e) ->
       skipCollaborators config org repo = true ->
       let '(r, w', t) := run gc (handle config e) w in
       exists p t1,
         calls t = Ev (GetPullRequest org repo number) p :: t1
         /\ match p with
            | Err err => r = Some err /\ t1 = []
            | Ok pr =>
                exists o t2,
                  t1 = Ev (LoadRepoOwners org repo
                             (github.PullRequestBranch.Ref
                                (github.PullRequest.Base pr))) o :: t2
                  /\ match o with
                     | Err err => r = Some err /\ t2 = []
                     | Ok ro =>
                         exists c t3,
                           t2 = Ev (GetPullRequestChanges org repo number) c
                                :: t3
                           /\ match c with
                              | Err _ =>
                                  r = Some (Errorf
                                        "cannot get PR changes for %s/%s#%d"
                                        [ArgString org; ArgString repo;
                                         ArgInt number])
                                  /\ t3 = []
                              | Ok changes =>
                                  if bool_decide
                                       (NormLogin login
                                        ∈ owners_of ro
                                            (map
                                               github.PullRequestChange.Filename
                                               changes))
                                  then
                                    exists x t4,
                                      t3 = Ev (GetIssueLabels org repo number) x
                                           :: t4
                                  else
                                    t3 = [Ev (reply e
                                                "adding LGTM is restricted to approvers and reviewers in OWNERS files.")
                                             r]
                                    /\ count is_AddLabel t = 0
                                    /\ count is_RemoveLabel t = 0
                                    /\ labels_fetched t = None
                              end
                     end
            end.
Proof.
  split; [exact loadReviewers_union|]. split.
  - intros ro filenames x. rewrite loadReviewers_union. unfold owners_of.
    rewrite elem_of_union_list. split.
    + intros (X & HX & Hx). apply list_elem_of_In, in_map_iff in HX.
      destruct HX as (f & <- & Hf). exists f. split; [exact Hf|].
      apply elem_of_union in Hx. exact Hx.
    + intros (f & Hf & Hx).
      exists (repoowners.Approvers ro f ∪ repoowners.Reviewers ro f). split.
      * apply list_elem_of_In, in_map_iff. eauto.
      * apply elem_of_union. exact Hx.
  - intros org repo number login want Hcons Hw Hlogin Hsk.
    assert (Hau : isAuthor e = false) by (apply String.eqb_neq, Hlogin).
    rewrite run_handle, Hcons, Hw.
    pose proof (handle_authorization_owners config e want w Hau Hsk) as Ho.
    pose proof (handle_authorization_run config e want w) as Ha.
    cbv zeta in Ho, Ha. fold org repo number login in Ho.
    destruct (run gc (handle_authorization config e want) w) as [[a w1] t1].
    destruct Ha as (Ha1 & Ha2 & Ha3 & _).
    destruct Ho as (p & c1 & Hc & Hp).
    pose proof (handle_label_run e want w1) as Hl. cbv zeta in Hl.
    fold org repo number in Hl.
    destruct (run gc (handle_label e want) w1) as [[r2 w2] t2].
    destruct Hl as (x & t' & Hl1 & _).
    assert (Hgo : a = None ->
                  calls (t1 ++ t2)
                  = calls t1 ++ Ev (GetIssueLabels org repo number) x :: calls t').
    { intros _. rewrite calls_app, Hl1. reflexivity. }
    destruct p as [pr|err].
    2:{ destruct Hp as [-> ->]. exists (Err err), []. auto. }
    destruct Hp as (o & c2 & -> & Hp). destruct o as [ro|err].
    2:{ destruct Hp as [-> ->]. eexists (Ok pr), _. split; [exact Hc|].
        exists (Err err), []. auto. }
    destruct Hp as (c & c3 & -> & Hp). destruct c as [changes|err].
    2:{ destruct Hp as [-> ->]. eexists (Ok pr), _. split; [exact Hc|].
        eexists (Ok ro), _. split; [reflexivity|].
        exists (Err err), []. auto. }
    rewrite loadReviewers_union in Hp.
    destruct (bool_decide _) eqn:Hb.
    + destruct Hp as [-> ->]. rewrite (Hgo eq_refl), Hc.
      eexists (Ok pr), _. split; [reflexivity|].
      eexists (Ok ro), _. split; [reflexivity|].
      eexists (Ok changes), _. split; [reflexivity|].
      rewrite Hb. eauto.
    + destruct Hp as (r & -> & ->).
      eexists (Ok pr), _. split; [exact Hc|].
      eexists (Ok ro), _. split; [reflexivity|].
      eexists (Ok changes), _. split; [reflexivity|].
      rewrite Hb. auto.
Qed.

(** C5, amended: the assignee test and the author test compare the
    logins as they are, byte for byte; only the lookup in the union of
    the owners normalizes the login of the commenter: in a run that
    loaded the owners and fetched the changed files, the handler goes on
    to fetch the labels exactly when the normalized login is in the
    union. *)
Theorem login_comparisons config e w :
  (isAssignee e = true <->
   In (github.User.Login (github.GenericCommentEvent.User e))
      (map github.User.Login (github.GenericCommentEvent.Assignees e)))
  /\ (isAuthor e = true <->
      github.User.Login (github.GenericCommentEvent.User e)
      = github.User.Login (github.GenericCommentEvent.IssueAuthor e))
  /\ let '(r, w', t) := run gc (handle config e) w in
     forall ro changes,
       owners_loaded t = Some (Ok ro) ->
       changes_fetched t = Some (Ok changes) ->
       (labels_fetched t <> None <->
        NormLogin (github.User.Login (github.GenericCommentEvent.User e))
        ∈ owners_of ro (map github.PullRequestChange.Filename changes)).
Proof.
  split; [apply isAssignee_In|]. split; [apply String.eqb_eq|].
  split_handle config e w; try (intros ro changes Ho; discriminate Ho).
  - intros ro changes Ho Hc.
    destruct (Ha8 ro changes Ho Hc) as (_ & _ & pr & Hif).
    rewrite loadReviewers_union in Hif. rewrite Ha1.
    split; [congruence|]. intros Hin.
    rewrite bool_decide_eq_true_2 in Hif by exact Hin.
    destruct Hif as (Hr & _). discriminate Hr.
  - intros ro changes Ho Hc.
    destruct (no_authorization_call _ Hl3) as (Ho2 & Hc2 & _).
    rewrite owners_loaded_app, Ho2 in Ho.
    rewrite changes_fetched_app, Hc2 in Hc.
    destruct (owners_loaded t1) as [xo|] eqn:Eo; [|discriminate].
    destruct (changes_fetched t1) as [xc|] eqn:Ec; [|discriminate].
    injection Ho as ->. injection Hc as ->.
    destruct (Ha8 ro changes eq_refl eq_refl) as (_ & _ & pr & Hif).
    rewrite loadReviewers_union in Hif.
    rewrite labels_fetched_app, Ha1, Hl2.
    split; [|congruence]. intros _.
    destruct (bool_decide _) eqn:Hb in Hif.
    + apply bool_decide_eq_true in Hb. exact Hb.
    + destruct Hif as (r0 & Hr & _). discriminate Hr.
Qed.

(** ** The command of a comment *)

(** C1, amended: a body with an approve line is an approve command,
    whatever its other lines; a body with a cancel line and no approve
    line is a cancel command; any other body is no command, and the
    handler then returns no error and makes no call. *)
Theorem command_classification config e w :
  let body := github.GenericCommentEvent.Body e in
  wantLGTM body
  = (if has_approve_line body then Some true
     else if has_cancel_line body then Some false
     else None)
  /\ (wantLGTM body = None -> run gc (handle config e) w = (None, w, [])).
Proof.
  intros body. split.
  - unfold wantLGTM. rewrite lgtmRe_lines, lgtmCancelRe_lines. reflexivity.
  - intros Hw. rewrite run_handle. fold body. rewrite Hw.
    destruct (considered e); reflexivity.
Qed.

End HandleFacts.

(** ** More on the comment handler *)

Section MoreHandleFacts.

Context {imports : Imports} {W : Type} (gc : client W).

Lemma first_seen_app {A : Type} (f : event -> option A) t1 t2 :
  first_seen f (t1 ++ t2)
  = match first_seen f t1 with
    | Some a => Some a
    | None => first_seen f t2
    end.
Proof.
  induction t1 as [|ev t1 IH]; simpl; [reflexivity|].
  destruct (f ev); [reflexivity | exact IH].
Qed.

Lemma first_seen_left {A : Type} (f : event -> option A) t1 t2 (a : A) :
  first_seen f t2 = None ->
  first_seen f (t1 ++ t2) = Some a -> first_seen f t1 = Some a.
Proof.
  intros H2. rewrite first_seen_app, H2.
  destruct (first_seen f t1); [auto | discriminate].
Qed.

Lemma deletions_app t1 t2 :
  deletions (t1 ++ t2) = deletions t1 ++ deletions t2.
Proof.
  induction t1 as [|[X c x] t1 IH]; simpl; [reflexivity|].
  destruct c; simpl; rewrite ?IH; reflexivity.
Qed.

(** The first half of [handle] makes no call of the second half. *)
Lemma authorization_quiet t :
  forallb authorization_event t = true ->
  add_result t = None /\ remove_result t = None /\ bot_named t = None
  /\ comments_listed t = None /\ deletions t = []
  /\ existsb cleanup_call t = false /\ labels_fetched t = None.
Proof.
  induction t as [|[X c x] t IH]; simpl; [auto 10|].
  intros H. apply andb_true_iff in H as [Hc Ht].
  destruct c; try discriminate Hc; simpl; auto.
Qed.

(** The second half of [handle] makes no call of the first half. *)
Lemma label_quiet t :
  forallb label_event t = true ->
  assign_result t = None /\ collaborator_result t = None
  /\ pr_fetched t = None /\ owners_loaded t = None /\ changes_fetched t = None
  /\ count is_CreateComment t = 0 /\ existsb authorization_call t = false.
Proof.
  induction t as [|[X c x] t IH]; simpl; [auto 10|].
  intros H. apply andb_true_iff in H as [Hc Ht].
  destruct c; try discriminate Hc; simpl; auto.
Qed.

Lemma delete_quiet t :
  forallb delete_event t = true ->
  forallb label_event t = true /\ add_result t = None /\ remove_result t = None
  /\ bot_named t = None /\ comments_listed t = None
  /\ calls t = List.filter (fun ev => negb (is_log ev)) t
  /\ forallb (fun ev => negb (is_AddLabel ev) && negb (is_RemoveLabel ev)) t
     = true.
Proof.
  induction t as [|[X c x] t IH]; simpl; [auto 10|].
  intros H. apply andb_true_iff in H as [Hc Ht].
  destruct (IH Ht) as (H1 & H2 & H3 & H4 & H5 & H6 & H7).
  destruct c; try discriminate Hc; simpl; auto 10.
Qed.

(** The loop asks to delete the notifications of the bot, all of them
    and nothing else, whatever the deletions return. *)
Lemma deleteNotifications_deletions org repo number botname comments w :
  let '(u, w', t) :=
    run gc (deleteNotifications org repo number botname comments) w in
  deletions t
  = map (fun comment => (org, repo, github.IssueComment.ID comment))
      (List.filter (is_stale botname) comments)
  /\ forallb delete_event t = true.
Proof.
  revert w. induction comments as [|comment comments IH]; intros w.
  - simpl. auto.
  - cbn [deleteNotifications]. rewrite run_bind.
    cbn [List.filter]. unfold is_stale at 1.
    destruct (_ && _); simpl.
    + next_call gc. destruct x as [err|]; simpl; [next_call gc|].
      all: match goal with
           | |- context [run gc (deleteNotifications ?o ?r ?n ?b ?cs) ?w1] =>
               specialize (IH w1);
               destruct (run gc (deleteNotifications o r n b cs) w1)
                 as [[u w'] t]
           end.
      all: destruct IH as [IH1 IH2]; simpl; rewrite IH1, IH2; auto.
    + specialize (IH w).
      destruct (run gc (deleteNotifications org repo number botname comments) w)
        as [[u w'] t].
      exact IH.
Qed.

Ltac run_more :=
  simpl;
  first
    [ next_call gc
    | match goal with
      | |- context [match ?x with _ => _ end] => is_var x; destruct x
      | |- context [bool_decide ?P] => destruct (bool_decide P) eqn:?
      end ].

(** Name the last call of a run that is known call by call. *)
Ltac last_call :=
  first
    [ eexists [], _; split; reflexivity
    | eexists [_], _; split; reflexivity
    | eexists [_; _], _; split; reflexivity
    | eexists [_; _; _], _; split; reflexivity ].

(** The first half of [handle], path by path: what is posted, what is
    returned, and after which call. *)
Lemma handle_authorization_paths config e want w :
  let org :=
    github.User.Login (github.Repo.Owner (github.GenericCommentEvent.Repo e)) in
  let repo := github.Repo.Name (github.GenericCommentEvent.Repo e) in
  let number := github.GenericCommentEvent.Number e in
  let login := github.User.Login (github.GenericCommentEvent.User e) in
  let '(a, w', t) := run gc (handle_authorization config e want) w in
  forallb authorization_event t = true
  /\ count is_CreateComment t <= 1
  /\ (a = None -> count is_CreateComment t = 0)
  /\ (count is_CreateComment t = 1 ->
      exists r t0 resp, a = Some r /\ calls t = t0 ++ [Ev (reply e resp) r])
  /\ (forall err, a = Some (Some err) ->
      exists t0 ev, calls t = t0 ++ [ev] /\ failed ev = true)
  /\ (forall x, assign_result t = Some x ->
      match x with
      | None =>
          a = None
          /\ calls t = [Ev (AssignIssue org repo number [login]) None]
      | Some err =>
          exists c r,
            a = Some r
            /\ calls t
               = [Ev (AssignIssue org repo number [login]) (Some err);
                  Ev (IsCollaborator org repo login) c;
                  Ev (reply e (assign_failure_reply org repo c)) r]
      end)
  /\ (forall err, pr_fetched t = Some (Err err) ->
      a = Some (Some err)
      /\ calls t = [Ev (GetPullRequest org repo number) (Err err)])
  /\ (forall err, owners_loaded t = Some (Err err) ->
      a = Some (Some err)
      /\ exists pr,
          calls t
          = [Ev (GetPullRequest org repo number) (Ok pr);
             Ev (LoadRepoOwners org repo
                   (github.PullRequestBranch.Ref (github.PullRequest.Base pr)))
                (Err err)])
  /\ (forall err, changes_fetched t = Some (Err err) ->
      a = Some (Some (Errorf "cannot get PR changes for %s/%s#%d"
                        [ArgString org; ArgString repo; ArgInt number]))
      /\ exists pr ro,
          calls t
          = [Ev (GetPullRequest org repo number) (Ok pr);
             Ev (LoadRepoOwners org repo
                   (github.PullRequestBranch.Ref (github.PullRequest.Base pr)))
                (Ok ro);
             Ev (GetPullRequestChanges org repo number) (Err err)])
  /\ (skipCollaborators config org repo = true ->
      assign_result t = None /\ collaborator_result t = None)
  /\ (skipCollaborators config org repo = false ->
      pr_fetched t = None /\ owners_loaded t = None
      /\ changes_fetched t = None).
Proof.
  intros org repo number login. unfold handle_authorization.
  fold org. fold repo. fold number. fold login. cbv zeta.
  destruct (isAuthor e) eqn:Ha; destruct want;
    destruct (isAssignee e) eqn:Hs;
    destruct (skipCollaborators config org repo) eqn:Hk.
  all: repeat run_more.
  all: unfold reply, assign_failure_reply; simpl.
  all: repeat match goal with u : unit |- _ => destruct u end.
  all: repeat split; try discriminate; try congruence; try lia; eauto.
  all: intros;
    unfold assign_result, collaborator_result, pr_fetched in *;
    simpl in *; simplify_eq; simpl.
  all: try reflexivity.
  all: try last_call.
  all: try (first [ eexists _, [], _; split; reflexivity
                  | eexists _, [_], _; split; reflexivity
                  | eexists _, [_; _], _; split; reflexivity
                  | eexists _, [_; _; _], _; split; reflexivity ]).
  all: try (eexists _, _; split; reflexivity).
  all: try (split; [reflexivity|]; eexists; reflexivity).
  all: try (split; [reflexivity|]; eexists _, _; reflexivity).
  all: try (eexists; reflexivity).
  all: try match goal with
       | |- exists c r, _ /\ [_; Ev (IsCollaborator _ _ _) ?c0; Ev _ ?r0] = _ =>
           exists c0, r0; split; reflexivity
       end.
Qed.

(** The second half of [handle], path by path: what is returned and
    after which call, and what the clean-up deletes. *)
Lemma handle_label_paths e want w :
  let org :=
    github.User.Login (github.Repo.Owner (github.GenericCommentEvent.Repo e)) in
  let repo := github.Repo.Name (github.GenericCommentEvent.Repo e) in
  let number := github.GenericCommentEvent.Number e in
  let '(r, w', t) := run gc (handle_label e want) w in
  forallb label_event t = true
  /\ (forall x, remove_result t = Some x ->
      r = x
      /\ exists t0,
          calls t = t0 ++ [Ev (RemoveLabel org repo number lgtmLabel) x])
  /\ (forall x, add_result t = Some x ->
      match x with
      | None => r = None
      | Some err =>
          r = Some err /\ existsb cleanup_call t = false
          /\ exists t0,
              calls t
              = t0 ++ [Ev (AddLabel org repo number lgtmLabel) (Some err)]
      end)
  /\ (r <> None -> exists t0 ev, calls t = t0 ++ [ev] /\ failed ev = true)
  /\ deletions t
     = map (fun comment => (org, repo, github.IssueComment.ID comment))
         (List.filter (is_stale (botname_of t)) (comments_of t))
  /\ (existsb cleanup_call t = true -> add_result t = Some None)
  /\ (add_result t = Some None ->
      bot_named t <> None /\ comments_listed t <> None).
Proof.
  intros org repo number. unfold handle_label, deleteStaleNotifications.
  fold org. fold repo. fold number. simpl.
  next_call gc.
  destruct x as [labels [err|]]; simpl; [next_call gc|];
    destruct (hasLabel labels) eqn:Hh; simpl; destruct want; simpl.
  all: repeat next_call gc.
  all: try match goal with
       | E : gc _ (AddLabel _ _ _ _) _ = (?x, _) |- _ =>
           destruct x as [err'|]; simpl
       end.
  all: repeat run_more.
  all: try (rewrite run_bind; simpl).
  all: try match goal with
       | |- context [run gc (deleteNotifications ?o ?r ?n ?b ?cs) ?w1] =>
           pose proof (deleteNotifications_deletions o r n b cs w1) as Hd;
           destruct (run gc (deleteNotifications o r n b cs) w1)
             as [[u w'] td];
           cbv beta iota in Hd;
           destruct Hd as [Hd1 Hd2];
           destruct (delete_quiet _ Hd2)
             as (Hq1 & Hq2 & Hq3 & Hq4 & Hq5 & Hq6 & Hq7)
       end.
  all: unfold botname_of, comments_of, add_result, remove_result, bot_named,
         comments_listed in *; simpl in *; rewrite ?app_nil_r.
  all: repeat match goal with u : unit |- _ => destruct u end.
  all: rewrite ?Hq1, ?Hd1.
  all: repeat split; try discriminate; try congruence; eauto.
  all: intros; simplify_eq; simpl.
  all: try reflexivity.
  all: try match goal with
       | H : ?x <> None |- _ => destruct x; [|congruence]
       end.
  all: try last_call.
  all: repeat split; try reflexivity.
  all: try (first [ exists []; reflexivity | eexists [_]; reflexivity
                  | eexists [_; _]; reflexivity ]).
Qed.

(** Take a run of [handle] apart, with all that is known of each half. *)
Ltac split_more config e w :=
  rewrite (run_handle gc config e w);
  destruct (considered e) eqn:Hcons;
  [ destruct (wantLGTM (github.GenericCommentEvent.Body e)) as [want|] eqn:Hwant;
    [ pose proof (handle_authorization_run gc config e want w) as Hold;
      pose proof (handle_authorization_paths config e want w) as Hnew;
      cbv zeta in Hold, Hnew;
      destruct (run gc (handle_authorization config e want) w) as [[a w1] t1];
      destruct Hold as (Ha1 & Ha2 & Ha3 & Ha4 & Ha5 & Ha6 & Ha7 & Ha8);
      destruct Hnew as (Hp1 & Hp2 & Hp3 & Hp4 & Hp5 & Hp6 & Hp7 & Hp8 & Hp9
                        & Hp10 & Hp11);
      destruct (authorization_quiet _ Hp1)
        as (Hz1 & Hz2 & Hz3 & Hz4 & Hz5 & Hz6 & Hz7);
      destruct a as [ret|];
      [ | pose proof (handle_label_run gc e want w1) as Hl;
          pose proof (handle_label_paths e want w1) as Hm;
          cbv zeta in Hl, Hm;
          destruct (run gc (handle_label e want) w1) as [[r w2] t2];
          destruct Hl as (x & t' & Hl1 & Hl2 & Hl3 & Hl4 & Hl5 & Hl6 & Hl7 & Hl8
                          & Hl9 & Hl10);
          destruct Hm as (Hm1 & Hm2 & Hm3 & Hm4 & Hm5 & Hm6 & Hm7);
          destruct (label_quiet _ Hm1)
            as (Hy1 & Hy2 & Hy3 & Hy4 & Hy5 & Hy6 & Hy7) ]
    | ]
  | ].

(** X1: an event that is not a new comment on an open pull request is turned
    away: no call, no error, the state of the client untouched. *)
Theorem guard_turns_away config e w :
  github.GenericCommentEvent.IsPR e = false
  \/ github.GenericCommentEvent.IssueState e <> "open"
  \/ github.GenericCommentEvent.Action e <> github.GenericCommentActionCreated ->
  run gc (handle config e) w = (None, w, []).
Proof.
  intros H. rewrite run_handle.
  assert (Hc : considered e = false); [|rewrite Hc; reflexivity].
  unfold considered. destruct H as [H | [H | H]].
  - rewrite H. reflexivity.
  - apply String.eqb_neq in H. rewrite H. apply andb_false_iff. left.
    apply andb_false_r.
  - apply String.eqb_neq in H. rewrite H. apply andb_false_r.
Qed.

(** X2: when the assignment of the commenter succeeds the handler goes on to
    the label: its calls are the one assignment, of the commenter alone,
    then the fetch of the labels and what follows it. *)
Theorem assignment_success config e w :
  let org :=
    github.User.Login (github.Repo.Owner (github.GenericCommentEvent.Repo e)) in
  let repo := github.Repo.Name (github.GenericCommentEvent.Repo e) in
  let number := github.GenericCommentEvent.Number e in
  let login := github.User.Login (github.GenericCommentEvent.User e) in
  let '(r, w', t) := run gc (handle config e) w in
  assign_result t = Some None ->
  exists x t',
    calls t
    = Ev (AssignIssue org repo number [login]) None
      :: Ev (GetIssueLabels org repo number) x :: t'.
Proof.
  intros org repo number login.
  split_more config e w; try discriminate.
  - intros Hx. destruct (Hp6 None Hx) as [Hn _]. discriminate Hn.
  - intros Hx. apply (first_seen_left _ t1 t2 _ Hy1) in Hx.
    destruct (Hp6 None Hx) as [_ Hc].
    rewrite calls_app, Hc, Hl1. simpl. eauto.
Qed.

(** X3: when the assignment of the commenter fails the handler asks whether
    the commenter is a collaborator, posts one reply whose text depends
    on the answer alone, and returns what posting returns, not the error
    of the assignment; the label is neither fetched nor changed. *)
Theorem assignment_failure config e w :
  let org :=
    github.User.Login (github.Repo.Owner (github.GenericCommentEvent.Repo e)) in
  let repo := github.Repo.Name (github.GenericCommentEvent.Repo e) in
  let number := github.GenericCommentEvent.Number e in
  let login := github.User.Login (github.GenericCommentEvent.User e) in
  let '(r, w', t) := run gc (handle config e) w in
  forall err,
    assign_result t = Some (Some err) ->
    (exists c,
       calls t
       = [Ev (AssignIssue org repo number [login]) (Some err);
          Ev (IsCollaborator org repo login) c;
          Ev (reply e (assign_failure_reply org repo c)) r])
    /\ labels_fetched t = None
    /\ count is_AddLabel t = 0 /\ count is_RemoveLabel t = 0.
Proof.
  intros org repo number login.
  split_more config e w; try discriminate.
  - intros err Hx. destruct (Hp6 _ Hx) as (c & r & Hr & Hc).
    injection Hr as ->. eauto.
  - intros err Hx. apply (first_seen_left _ t1 t2 _ Hy1) in Hx.
    destruct (Hp6 _ Hx) as (c & r0 & Hr & _). discriminate Hr.
Qed.

(** X4: the look-up of the owners stops at the first call that fails: the
    error of [GetPullRequest] or of [LoadRepoOwners] is returned as it
    is, the error of [GetPullRequestChanges] is replaced by a fixed one
    that names the pull request; nothing is posted and the label is not
    fetched. *)
Theorem owners_lookup_errors config e w :
  let org :=
    github.User.Login (github.Repo.Owner (github.GenericCommentEvent.Repo e)) in
  let repo := github.Repo.Name (github.GenericCommentEvent.Repo e) in
  let number := github.GenericCommentEvent.Number e in
  let '(r, w', t) := run gc (handle config e) w in
  (forall err,
     pr_fetched t = Some (Err err) ->
     r = Some err
     /\ calls t = [Ev (GetPullRequest org repo number) (Err err)])
  /\ (forall err,
        owners_loaded t = Some (Err err) ->
        r = Some err
        /\ exists pr,
            calls t
            = [Ev (GetPullRequest org repo number) (Ok pr);
               Ev (LoadRepoOwners org repo
                     (github.PullRequestBranch.Ref (github.PullRequest.Base pr)))
                  (Err err)])
  /\ (forall err,
        changes_fetched t = Some (Err err) ->
        r = Some (Errorf "cannot get PR changes for %s/%s#%d"
                    [ArgString org; ArgString repo; ArgInt number])
        /\ exists pr ro,
            calls t
            = [Ev (GetPullRequest org repo number) (Ok pr);
               Ev (LoadRepoOwners org repo
                     (github.PullRequestBranch.Ref (github.PullRequest.Base pr)))
                  (Ok ro);
               Ev (GetPullRequestChanges org repo number) (Err err)]).
Proof.
  intros org repo number.
  split_more config e w;
    try (split; [|split]; intros err Hx; discriminate Hx).
  - split; [|split]; intros err Hx.
    + destruct (Hp7 _ Hx) as [Hr Hc]. injection Hr as ->. auto.
    + destruct (Hp8 _ Hx) as [Hr Hc]. injection Hr as ->. auto.
    + destruct (Hp9 _ Hx) as [Hr Hc]. injection Hr as ->. auto.
  - rewrite owners_loaded_app, changes_fetched_app, Hy4, Hy5.
    split; [|split]; intros err Hx; exfalso.
    + apply (first_seen_left _ t1 t2 _ Hy3) in Hx.
      destruct (Hp7 _ Hx) as [Hr _]. discriminate Hr.
    + assert (Hx' : owners_loaded t1 = Some (Err err))
        by (destruct (owners_loaded t1); [exact Hx | discriminate Hx]).
      destruct (Hp8 _ Hx') as [Hr _]. discriminate Hr.
    + assert (Hx' : changes_fetched t1 = Some (Err err))
        by (destruct (changes_fetched t1); [exact Hx | discriminate Hx]).
      destruct (Hp9 _ Hx') as [Hr _]. discriminate Hr.
Qed.

Lemma skipCollaborators_In config org repo :
  skipCollaborators config org repo = true <->
  In org (plugins.Owners.SkipCollaborators (plugins.Configuration.Owners config))
  \/ In (org +:+ "/" +:+ repo)
       (plugins.Owners.SkipCollaborators (plugins.Configuration.Owners config)).
Proof.
  unfold skipCollaborators. rewrite existsb_exists. split.
  - intros (elem & Hin & H). apply orb_true_iff in H as [H | H];
      apply String.eqb_eq in H; subst elem; auto.
  - intros [H | H]; eexists; (split; [exact H|]);
      rewrite String.eqb_refl; [reflexivity | apply orb_true_r].
Qed.

(** X5: the skip list alone chooses the way of authorizing: when the
    organisation or [org/repo] is listed no run assigns the commenter or
    asks whether they are a collaborator; when neither is listed no run
    fetches the pull request, loads owners or fetches the changed
    files. *)
Theorem authorization_by_configuration config e w :
  let org :=
    github.User.Login (github.Repo.Owner (github.GenericCommentEvent.Repo e)) in
  let repo := github.Repo.Name (github.GenericCommentEvent.Repo e) in
  let listed :=
    plugins.Owners.SkipCollaborators (plugins.Configuration.Owners config) in
  let '(r, w', t) := run gc (handle config e) w in
  (In org listed \/ In (org +:+ "/" +:+ repo) listed ->
   assign_result t = None /\ collaborator_result t = None)
  /\ (~ In org listed -> ~ In (org +:+ "/" +:+ repo) listed ->
      pr_fetched t = None /\ owners_loaded t = None
      /\ changes_fetched t = None).
Proof.
  intros org repo listed.
  pose proof (skipCollaborators_In config org repo) as Hskip. fold listed in Hskip.
  assert (Hoff : ~ In org listed -> ~ In (org +:+ "/" +:+ repo) listed ->
                 skipCollaborators config org repo = false).
  { intros H1 H2. destruct (skipCollaborators config org repo); [|reflexivity].
    destruct (proj1 Hskip eq_refl); contradiction. }
  split_more config e w; try (split; intros; repeat split; reflexivity).
  - split.
    + intros H. apply Hp10, Hskip, H.
    + intros H1 H2. apply Hp11, Hoff; assumption.
  - unfold assign_result, collaborator_result, pr_fetched in *.
    rewrite !first_seen_app, owners_loaded_app, changes_fetched_app,
      Hy1, Hy2, Hy3, Hy4, Hy5.
    split.
    + intros H. destruct (Hp10 (proj2 Hskip H)) as [-> ->]. auto.
    + intros H1 H2. destruct (Hp11 (Hoff H1 H2)) as (-> & -> & ->). auto.
Qed.

(** X6: with no changed file nobody is an owner: a run that loaded the
    owners and was given an empty list of changes posts the denial and
    returns what posting returns; the label is not fetched. *)
Theorem no_changed_files_denies config e w :
  let '(r, w', t) := run gc (handle config e) w in
  forall ro,
    owners_loaded t = Some (Ok ro) ->
    changes_fetched t = Some (Ok []) ->
    (exists t0,
       calls t
       = t0 ++ [Ev (reply e
                      "adding LGTM is restricted to approvers and reviewers in OWNERS files.")
                  r])
    /\ labels_fetched t = None.
Proof.
  assert (Hempty : forall ro x,
    x ∈ loadReviewers ro (map github.PullRequestChange.Filename []) -> False).
  { intros ro x. unfold loadReviewers. simpl. apply not_elem_of_empty. }
  split_more config e w; try (intros ro Ho; discriminate Ho).
  - intros ro Ho Hc.
    destruct (Ha8 ro [] Ho Hc) as (_ & _ & pr & Hif).
    destruct (bool_decide _) eqn:Hb in Hif;
      [apply bool_decide_eq_true in Hb; destruct (Hempty _ _ Hb)|].
    destruct Hif as (r & Hr & Hcalls).
    injection Hr as ->.
    split; [|exact Ha1]. rewrite Hcalls. eexists. reflexivity.
  - intros ro Ho Hc.
    rewrite owners_loaded_app, Hy4 in Ho.
    rewrite changes_fetched_app, Hy5 in Hc.
    destruct (owners_loaded t1) as [xo|] eqn:Eo; [|discriminate].
    destruct (changes_fetched t1) as [xc|] eqn:Ec; [|discriminate].
    injection Ho as ->. injection Hc as ->.
    destruct (Ha8 ro [] eq_refl eq_refl) as (_ & _ & pr & Hif).
    destruct (bool_decide _) eqn:Hb in Hif;
      [apply bool_decide_eq_true in Hb; destruct (Hempty _ _ Hb)|].
    destruct Hif as (r0 & Hr & _). discriminate Hr.
Qed.

(** X7: the handler posts one reply at most, and a run that posts one does
    nothing after it: the reply is the last call, its result is
    returned, and the label is neither fetched nor changed. *)
Theorem one_reply_at_most config e w :
  let '(r, w', t) := run gc (handle config e) w in
  count is_CreateComment t <= 1
  /\ (count is_CreateComment t = 1 ->
      (exists t0 resp, calls t = t0 ++ [Ev (reply e resp) r])
      /\ labels_fetched t = None
      /\ count is_AddLabel t = 0 /\ count is_RemoveLabel t = 0
      /\ existsb cleanup_call t = false).
Proof.
  split_more config e w; try (simpl; split; [lia | discriminate]).
  - split; [exact Hp2|]. intros H1.
    destruct (Hp4 H1) as (r & t0 & resp & Hr & Hc). injection Hr as ->.
    repeat split; eauto.
  - rewrite count_app, Hy6, (Hp3 eq_refl). simpl. split; [lia | discriminate].
Qed.

(** X8: every run is the authorization, then the label: the calls that
    assign, check or load owners and the reply all come before the
    first call that fetches, adds or removes the label or cleans up. *)
Theorem authorization_before_label config e w :
  let '(r, w', t) := run gc (handle config e) w in
  exists t1 t2,
    t = t1 ++ t2
    /\ forallb authorization_event t1 = true
    /\ forallb label_event t2 = true
    /\ (t2 <> [] -> count is_CreateComment t1 = 0).
Proof.
  split_more config e w.
  - exists t1, []. rewrite app_nil_r. repeat split; auto. congruence.
  - exists t1, t2. repeat split; auto.
  - exists [], []. repeat split; auto.
  - exists [], []. repeat split; auto.
Qed.

(** X9: the handler returns an error only when its last call failed: the
    failures that are logged (of the assignment, of the collaborator
    check, of the fetch of the labels, of the clean-up) never make it
    fail. *)
Theorem error_from_last_call config e w :
  let '(r, w', t) := run gc (handle config e) w in
  r <> None ->
  exists t0 ev, calls t = t0 ++ [ev] /\ failed ev = true.
Proof.
  split_more config e w; try congruence.
  - intros Hr. destruct ret as [err|]; [|congruence].
    exact (Hp5 err eq_refl).
  - intros Hr. destruct (Hm4 Hr) as (t0 & ev & Hc & Hf).
    exists (calls t1 ++ t0), ev. rewrite calls_app, Hc, app_assoc. auto.
Qed.

(** X10: what adding the label returns decides the outcome: on an error the
    handler returns it and cleans nothing up; on success the handler
    returns no error, whatever the clean-up meets. *)
Theorem add_label_result config e w :
  let '(r, w', t) := run gc (handle config e) w in
  forall x,
    add_result t = Some x ->
    match x with
    | Some err => r = Some err /\ existsb cleanup_call t = false
    | None => r = None
    end.
Proof.
  split_more config e w; try (intros res Hres; first [congruence | discriminate Hres]).
  - intros res Hres. unfold add_result in *.
    rewrite first_seen_app, Hz1 in Hres.
    specialize (Hm3 res Hres). destruct res as [err|]; [|exact Hm3].
    destruct Hm3 as (Hr & Hc & _). split; [exact Hr|].
    rewrite existsb_app, Hz6, Hc. reflexivity.
Qed.

(** X11: a cancel returns what removing the label returns, as it is: unlike
    [handlePullRequest] the comment handler does not take the error of
    a label that is not there for a success.  The removal is the last
    call. *)
Theorem remove_label_result config e w :
  let org :=
    github.User.Login (github.Repo.Owner (github.GenericCommentEvent.Repo e)) in
  let repo := github.Repo.Name (github.GenericCommentEvent.Repo e) in
  let number := github.GenericCommentEvent.Number e in
  let '(r, w', t) := run gc (handle config e) w in
  forall x,
    remove_result t = Some x ->
    r = x
    /\ exists t0,
        calls t = t0 ++ [Ev (RemoveLabel org repo number lgtmLabel) x].
Proof.
  intros org repo number.
  split_more config e w; try (intros res Hres; first [congruence | discriminate Hres]).
  - intros res Hres. unfold remove_result in *.
    rewrite first_seen_app, Hz2 in Hres.
    destruct (Hm2 res Hres) as (Hr & t0 & Hc). split; [exact Hr|].
    exists (calls t1 ++ t0). rewrite calls_app, Hc, app_assoc. reflexivity.
Qed.

(** X12: the clean-up asks to delete, on the repository of the pull
    request, exactly the comments whose author has the name of the bot
    and whose body is the notification, in the order they were listed,
    whatever each deletion returns; the name of the bot and the comments
    are those that [BotName] and [ListIssueComments] returned, with or
    without an error; the clean-up runs only after the label was added,
    and then makes both look-ups. *)
Theorem stale_notifications_deleted config e w :
  let org :=
    github.User.Login (github.Repo.Owner (github.GenericCommentEvent.Repo e)) in
  let repo := github.Repo.Name (github.GenericCommentEvent.Repo e) in
  let '(r, w', t) := run gc (handle config e) w in
  deletions t
  = map (fun comment => (org, repo, github.IssueComment.ID comment))
      (List.filter (is_stale (botname_of t)) (comments_of t))
  /\ (existsb cleanup_call t = true -> add_result t = Some None)
  /\ (add_result t = Some None ->
      bot_named t <> None /\ comments_listed t <> None).
Proof.
  intros org repo.
  split_more config e w;
    try (simpl; split; [reflexivity | split; discriminate]).
  - unfold botname_of, comments_of. rewrite Hz1, Hz3, Hz4, Hz5, Hz6.
    split; [reflexivity | split; discriminate].
  - unfold botname_of, comments_of, bot_named, comments_listed, add_result
      in *.
    rewrite deletions_app, !first_seen_app, existsb_app, Hz1, Hz3, Hz4, Hz5,
      Hz6.
    simpl. split; [exact Hm5 | split; [exact Hm6 | exact Hm7]].
Qed.

End MoreHandleFacts.

(** ** More on the patterns and on the owners *)

Lemma list_ascii_of_string_append (a b : string) :
  list_ascii_of_string (a +:+ b)
  = list_ascii_of_string a ++ list_ascii_of_string b.
Proof. induction a as [|c a IH]; simpl; [reflexivity | rewrite IH; reflexivity]. Qed.

Lemma lines_app (a b : text) :
  lines (a ++ newline :: b) = lines a ++ lines b.
Proof.
  induction a as [|c a IH]; simpl.
  - reflexivity.
  - destruct (Ascii.eqb c newline); rewrite IH; [reflexivity|].
    destruct (lines_head a) as (ls & ->). reflexivity.
Qed.

(** X13: a body is read part by part: two bodies joined by a newline are an
    approve command when one of them is, else a cancel command when one
    of them is, else no command. *)
Theorem command_per_line (a b : string) :
  MatchString lgtmRe (a +:+ nl +:+ b)
  = MatchString lgtmRe a || MatchString lgtmRe b
  /\ MatchString lgtmCancelRe (a +:+ nl +:+ b)
     = MatchString lgtmCancelRe a || MatchString lgtmCancelRe b
  /\ wantLGTM (a +:+ nl +:+ b)
     = match wantLGTM a, wantLGTM b with
       | Some true, _ | _, Some true => Some true
       | Some false, _ | _, Some false => Some false
       | None, None => None
       end.
Proof.
  assert (Hl : lines (list_ascii_of_string (a +:+ nl +:+ b))
               = lines (list_ascii_of_string a)
                 ++ lines (list_ascii_of_string b)).
  { rewrite !list_ascii_of_string_append. apply lines_app. }
  assert (H1 : MatchString lgtmRe (a +:+ nl +:+ b)
               = MatchString lgtmRe a || MatchString lgtmRe b).
  { rewrite !lgtmRe_lines. unfold has_approve_line.
    rewrite Hl. apply existsb_app. }
  assert (H2 : MatchString lgtmCancelRe (a +:+ nl +:+ b)
               = MatchString lgtmCancelRe a || MatchString lgtmCancelRe b).
  { rewrite !lgtmCancelRe_lines. unfold has_cancel_line.
    rewrite Hl. apply existsb_app. }
  split; [exact H1|]. split; [exact H2|].
  unfold wantLGTM. rewrite H1, H2.
  destruct (MatchString lgtmRe a), (MatchString lgtmRe b),
    (MatchString lgtmCancelRe a), (MatchString lgtmCancelRe b); reflexivity.
Qed.

Lemma trim_right_head l c r : trim_right l = c :: r -> exists l', l = c :: l'.
Proof.
  destruct l as [|c' l]; simpl; [discriminate|].
  destruct (trim_right l); [destruct (is_space c')|];
    intros H; try discriminate; injection H as -> _; eauto.
Qed.

Lemma line_is_slash command l :
  line_is (String "/" command) l = true -> exists l', l = "/"%char :: l'.
Proof.
  unfold line_is. cbn [list_ascii_of_string ci_eq].
  change (fold_orbit "/") with [["/"%char]]. cbn [existsb].
  rewrite orb_false_r. intros H.
  apply andb_true_iff in H as [H _].
  destruct (trim_right l) as [|c r] eqn:E; cbn [is_prefix] in H;
    [discriminate|].
  apply andb_true_iff in H as [H _]. apply Ascii.eqb_eq in H. subst c.
  exact (trim_right_head _ _ _ E).
Qed.

(** X14: a command starts its line: a body that is a command has a line whose
    first byte is the slash, so a quoted or indented command is none. *)
Theorem command_starts_line (body : string) :
  wantLGTM body <> None ->
  exists l rest,
    In l (lines (list_ascii_of_string body)) /\ l = "/"%char :: rest.
Proof.
  unfold wantLGTM. rewrite lgtmRe_lines, lgtmCancelRe_lines.
  unfold has_approve_line, has_cancel_line. intros H.
  assert (Hex : exists l, In l (lines (list_ascii_of_string body))
                          /\ (is_approve_line l = true
                              \/ is_cancel_line l = true)).
  { destruct (existsb is_approve_line _) eqn:Ha.
    - apply existsb_exists in Ha as (l & Hin & Hl). eauto.
    - destruct (existsb is_cancel_line _) eqn:Hc; [|congruence].
      apply existsb_exists in Hc as (l & Hin & Hl). eauto. }
  destruct Hex as (l & Hin & Hl). exists l.
  assert (Hs : exists l', l = "/"%char :: l').
  { destruct Hl as [Hl | Hl].
    - apply orb_true_iff in Hl as [Hl | Hl].
      + exact (line_is_slash "lgtm" l Hl).
      + exact (line_is_slash "lgtm no-issue" l Hl).
    - exact (line_is_slash "lgtm cancel" l Hl). }
  destruct Hs as (rest & ->). eauto.
Qed.

Lemma elem_of_owners_of ro filenames x :
  x ∈ owners_of ro filenames <->
  exists filename,
    In filename filenames
    /\ (x ∈ repoowners.Approvers ro filename
        \/ x ∈ repoowners.Reviewers ro filename).
Proof.
  unfold owners_of. rewrite elem_of_union_list. split.
  - intros (X & HX & Hx). apply list_elem_of_In, in_map_iff in HX.
    destruct HX as (f & <- & Hf). exists f. split; [exact Hf|].
    apply elem_of_union in Hx. exact Hx.
  - intros (f & Hf & Hx).
    exists (repoowners.Approvers ro f ∪ repoowners.Reviewers ro f). split.
    + apply list_elem_of_In, in_map_iff. eauto.
    + apply elem_of_union. exact Hx.
Qed.

(** X15: the owners of a list of files do not depend on its order or on
    repeated files, and the owners of two lists joined are the union of
    the owners of each; no file, no owner. *)
Theorem loadReviewers_compose ro fs1 fs2 :
  loadReviewers ro (fs1 ++ fs2) = loadReviewers ro fs1 ∪ loadReviewers ro fs2
  /\ ((forall f, In f fs1 <-> In f fs2) ->
      loadReviewers ro fs1 = loadReviewers ro fs2)
  /\ loadReviewers ro [] = ∅.
Proof.
  rewrite !loadReviewers_union. split; [|split].
  - unfold owners_of. rewrite map_app. apply union_list_app_L.
  - intros Hsame. apply set_eq. intros x. rewrite !elem_of_owners_of.
    split; intros (f & Hf & Hx); exists f; (split; [apply Hsame, Hf | exact Hx]).
  - reflexivity.
Qed.

(** ** The case of the letters *)

Lemma In_all_ascii c : In c all_ascii.
Proof.
  unfold all_ascii. rewrite <- (ascii_nat_embedding c).
  apply in_map, in_seq. pose proof (nat_ascii_bounded c). lia.
Qed.

Lemma forall_ascii (P : ascii -> bool) :
  forallb P all_ascii = true -> forall c, P c = true.
Proof. rewrite forallb_forall. intros H c. apply H, In_all_ascii. Qed.

Lemma to_lower_newline b :
  Ascii.eqb (to_lower b) newline = Ascii.eqb b newline.
Proof.
  apply Bool.eqb_prop.
  revert b. apply forall_ascii. vm_compute. reflexivity.
Qed.

Lemma to_lower_space b : is_space (to_lower b) = is_space b.
Proof.
  apply Bool.eqb_prop.
  revert b. apply forall_ascii. vm_compute. reflexivity.
Qed.

Lemma to_lower_plain x b :
  plain x = true -> Ascii.eqb x (to_lower b) = Ascii.eqb x b.
Proof.
  intros Hx. apply Bool.eqb_prop.
  assert (H : forall x b,
    implb (plain x)
      (Bool.eqb (Ascii.eqb x (to_lower b)) (Ascii.eqb x b)) = true).
  { intros x'. apply forall_ascii. revert x'. apply forall_ascii.
    vm_compute. reflexivity. }
  specialize (H x b). rewrite Hx in H. exact H.
Qed.

(** A rune that matches a literal is made of plain bytes or is one
    letter. *)
Lemma orbit_shape c m :
  In m (fold_orbit c) ->
  forallb plain m = true \/ exists x, m = [x].
Proof.
  intros Hin.
  assert (H : forallb (fun m => forallb plain m
                                || match m with [_] => true | _ => false end)
                (fold_orbit c) = true).
  { revert c Hin. intros c _. revert c. apply forall_ascii.
    vm_compute. reflexivity. }
  rewrite forallb_forall in H. specialize (H m Hin).
  apply orb_true_iff in H as [H | H]; [left; exact H|].
  right. destruct m as [|x [|y m]]; try discriminate. eauto.
Qed.

(** The letters a literal matches are closed under lowering, both
    ways. *)
Lemma orbit_lower c b :
  existsb (is_byte (to_lower b)) (fold_orbit c)
  = existsb (is_byte b) (fold_orbit c).
Proof.
  apply Bool.eqb_prop. revert b. apply forall_ascii.
  revert c. apply forall_ascii. vm_compute. reflexivity.
Qed.

Lemma is_prefix_plain m l :
  forallb plain m = true -> is_prefix m (map to_lower l) = is_prefix m l.
Proof.
  revert l. induction m as [|x m IH]; intros l Hm; [reflexivity|].
  simpl in Hm. apply andb_true_iff in Hm as [Hx Hm].
  destruct l as [|b l]; simpl; [reflexivity|].
  rewrite (to_lower_plain x b Hx), IH by exact Hm. reflexivity.
Qed.

Lemma skipn_map_lower n (l : text) :
  skipn n (map to_lower l) = map to_lower (skipn n l).
Proof.
  revert l. induction n as [|n IH]; intros l; [reflexivity|].
  destruct l as [|b l]; simpl; [reflexivity | apply IH].
Qed.

Lemma is_byte_In y ms :
  existsb (is_byte y) ms = true <-> In [y] ms.
Proof.
  rewrite existsb_exists. split.
  - intros (m & Hin & H). destruct m as [|x [|z m]]; try discriminate.
    simpl in H. apply Ascii.eqb_eq in H. subst x. exact Hin.
  - intros Hin. exists [y]. split; [exact Hin|]. simpl. apply Ascii.eqb_refl.
Qed.

(** A prefix that matches the lowered line, from one that matches the
    line, and back. *)
Lemma orbit_prefix_lower c l :
  (forall m, In m (fold_orbit c) -> is_prefix m (map to_lower l) = true ->
     exists m', In m' (fold_orbit c) /\ length m' = length m
                /\ is_prefix m' l = true)
  /\ (forall m, In m (fold_orbit c) -> is_prefix m l = true ->
        exists m', In m' (fold_orbit c) /\ length m' = length m
                   /\ is_prefix m' (map to_lower l) = true).
Proof.
  split; intros m Hin Hp.
  - destruct (orbit_shape c m Hin) as [Hplain | (x & ->)].
    + exists m. rewrite <- (is_prefix_plain m l Hplain). auto.
    + destruct l as [|b l]; simpl in Hp; [discriminate|].
      apply andb_true_iff in Hp as [Hx _]. apply Ascii.eqb_eq in Hx. subst x.
      apply is_byte_In in Hin. rewrite orbit_lower in Hin.
      apply is_byte_In in Hin. exists [b]. simpl.
      rewrite Ascii.eqb_refl. auto.
  - destruct (orbit_shape c m Hin) as [Hplain | (x & ->)].
    + exists m. rewrite (is_prefix_plain m l Hplain). auto.
    + destruct l as [|b l]; simpl in Hp; [discriminate|].
      apply andb_true_iff in Hp as [Hx _]. apply Ascii.eqb_eq in Hx. subst x.
      apply is_byte_In in Hin. rewrite <- orbit_lower in Hin.
      apply is_byte_In in Hin. exists [to_lower b]. simpl.
      rewrite Ascii.eqb_refl. auto.
Qed.

Lemma ci_then_lower target (k k' : text -> bool) :
  (forall r, k (map to_lower r) = k' r) ->
  forall l, ci_then target k (map to_lower l) = ci_then target k' l.
Proof.
  intros Hk. induction target as [|c target IH]; intros l; simpl.
  - apply Hk.
  - apply eq_true_iff_eq. rewrite !existsb_exists.
    destruct (orbit_prefix_lower c l) as [Hto Hfrom].
    split; intros (m & Hin & H); apply andb_true_iff in H as [Hp Hrest].
    + destruct (Hto m Hin Hp) as (m' & Hin' & Hlen & Hp').
      exists m'. split; [exact Hin'|]. rewrite Hp'. simpl.
      rewrite skipn_map_lower, IH, <- Hlen in Hrest. exact Hrest.
    + destruct (Hfrom m Hin Hp) as (m' & Hin' & Hlen & Hp').
      exists m'. split; [exact Hin'|]. rewrite Hp'. simpl.
      rewrite skipn_map_lower, IH, Hlen. exact Hrest.
Qed.

Lemma lines_lower (t : text) :
  lines (map to_lower t) = map (map to_lower) (lines t).
Proof.
  induction t as [|c t IH]; simpl; [reflexivity|].
  rewrite to_lower_newline, IH.
  destruct (Ascii.eqb c newline); [reflexivity|].
  destruct (lines t); reflexivity.
Qed.

Lemma trim_right_lower (l : text) :
  trim_right (map to_lower l) = map to_lower (trim_right l).
Proof.
  induction l as [|c l IH]; simpl; [reflexivity|].
  rewrite IH, to_lower_space.
  destruct (trim_right l); simpl; [destruct (is_space c)|]; reflexivity.
Qed.

Lemma line_is_lower command (l : text) :
  line_is command (map to_lower l) = line_is command l.
Proof.
  unfold line_is. rewrite trim_right_lower, !ci_eq_then.
  apply ci_then_lower. intros r. destruct r; reflexivity.
Qed.

Lemma existsb_map {A B : Type} (f : B -> bool) (g : A -> B) (l : list A) :
  existsb f (map g l) = existsb (fun x => f (g x)) l.
Proof. induction l as [|x l IH]; simpl; [reflexivity | rewrite IH; reflexivity]. Qed.

(** X16: the case of the ASCII letters of a body does not matter: the body
    with its letters lowered is the same command. *)
Theorem command_ignores_case (body : string) :
  wantLGTM (lower_string body) = wantLGTM body.
Proof.
  unfold wantLGTM. rewrite !lgtmRe_lines, !lgtmCancelRe_lines.
  unfold has_approve_line, has_cancel_line, lower_string.
  rewrite list_ascii_of_string_of_list_ascii, lines_lower, !existsb_map.
  rewrite (existsb_ext (fun l => is_approve_line (map to_lower l))
             is_approve_line)
    by (intros l; unfold is_approve_line; rewrite !line_is_lower; reflexivity).
  rewrite (existsb_ext (fun l => is_cancel_line (map to_lower l))
             is_cancel_line)
    by (intros l; unfold is_cancel_line; apply line_is_lower).
  reflexivity.
Qed.

(** ** The theorems at concrete inputs *)

(** Evaluate the run a fact is about. *)
Ltac at_run :=
  match goal with
  | |- context [run ?gc ?p ?w] =>
      let res := fresh "res" in
      let E := fresh "E" in
      remember (run gc p w) as res eqn:E; vm_compute in E; subst res;
      cbv beta iota in *
  end.

(** C1 as stated fails: a body with a cancel line after an approve line
    is an approve command. *)
Lemma cancel_line_not_cancel :
  ~ (forall body, has_cancel_line body = true -> wantLGTM body = Some false).
Proof.
  intros H. specialize (H two_commands eq_refl). vm_compute in H.
  discriminate H.
Qed.

(** A comment without a command, from start to end. *)
Lemma command_classification_witness :
  let e := comment_event "looks good to me" "bob" "alice" [] in
  wantLGTM (github.GenericCommentEvent.Body e) = None
  /\ run fake_client (handle (imports := fake_imports) no_skip e) (world [])
     = (None, world [], []).
Proof.
  intros e. split; [reflexivity|].
  apply (@command_classification fake_imports fake fake_client no_skip e
           (world [])). reflexivity.
Defined.

(** C2 as stated fails: both patterns match the body of two commands. *)
Lemma both_patterns_match :
  ~ (forall body,
       MatchString lgtmRe body && MatchString lgtmCancelRe body = false).
Proof. intros H. specialize (H two_commands). vm_compute in H. discriminate H. Qed.

(** An approve line, the body of two commands, a body of one line. *)
Lemma patterns_exclusive_per_line_witness :
  (is_approve_line (list_ascii_of_string "/LGTM  ") = true
   /\ is_cancel_line (list_ascii_of_string "/LGTM  ") = false)
  /\ (MatchString lgtmRe two_commands = true
      /\ MatchString lgtmCancelRe two_commands = true
      /\ exists l1 l2,
          In l1 (lines (list_ascii_of_string two_commands))
          /\ In l2 (lines (list_ascii_of_string two_commands))
          /\ l1 <> l2
          /\ is_approve_line l1 = true /\ is_cancel_line l2 = true)
  /\ (lines (list_ascii_of_string "/lgtm cancel")
      = [list_ascii_of_string "/lgtm cancel"]
      /\ MatchString lgtmRe "/lgtm cancel"
         && MatchString lgtmCancelRe "/lgtm cancel" = false).
Proof.
  destruct patterns_exclusive_per_line as (H1 & H2 & H3 & _).
  split; [split; [reflexivity | apply H1; reflexivity]|].
  split; [split; [reflexivity | split; [reflexivity | apply H2; reflexivity]]|].
  split; [reflexivity|].
  apply (H3 "/lgtm cancel"%string (list_ascii_of_string "/lgtm cancel")).
  reflexivity.
Defined.

(** The author of the pull request comments [/lgtm]. *)
Lemma self_approval_rejected_witness :
  let e := comment_event "/lgtm" "alice" "alice" [] in
  github.User.Login (github.GenericCommentEvent.User e)
  = github.User.Login (github.GenericCommentEvent.IssueAuthor e)
  /\ wantLGTM (github.GenericCommentEvent.Body e) = Some true
  /\ let '(r, w', t) :=
       run fake_client (handle (imports := fake_imports) no_skip e) (world [])
     in
     (considered e = true ->
      calls t
      = [Ev (reply (imports := fake_imports) e "you cannot LGTM your own PR.") r])
     /\ (considered e = false -> t = [])
     /\ count is_AddLabel t = 0 /\ count is_RemoveLabel t = 0
     /\ existsb authorization_call t = false
     /\ labels_fetched t = None.
Proof.
  intros e. split; [reflexivity|]. split; [reflexivity|].
  apply (@self_approval_rejected fake_imports fake fake_client no_skip e
           (world [])); reflexivity.
Defined.

(** The author cancels, on a repository in the skip list. *)
Lemma author_may_cancel_witness :
  let e := comment_event "/lgtm cancel" "alice" "alice" [] in
  considered e = true
  /\ github.User.Login (github.GenericCommentEvent.User e)
     = github.User.Login (github.GenericCommentEvent.IssueAuthor e)
  /\ wantLGTM (github.GenericCommentEvent.Body e) = Some false
  /\ handle (imports := fake_imports) skip_kubernetes e = handle_label e false
  /\ let '(r, w', t) :=
       run fake_client (handle (imports := fake_imports) skip_kubernetes e)
         (world ["lgtm"]) in
     existsb authorization_call t = false
     /\ exists x t',
         t = Ev (GetIssueLabels
                   (github.User.Login
                      (github.Repo.Owner (github.GenericCommentEvent.Repo e)))
                   (github.Repo.Name (github.GenericCommentEvent.Repo e))
                   (github.GenericCommentEvent.Number e)) x :: t'.
Proof.
  intros e. split; [reflexivity|]. split; [reflexivity|].
  split; [reflexivity|].
  apply (@author_may_cancel fake_imports fake fake_client skip_kubernetes e
           (world ["lgtm"])); reflexivity.
Defined.

(** An assignee approves; a commenter who is not assigned approves. *)
Lemma assignee_is_authorized_witness :
  (let e := comment_event "/lgtm" "bob" "alice" ["carol"; "bob"] in
   considered e = true
   /\ wantLGTM (github.GenericCommentEvent.Body e) = Some true
   /\ github.User.Login (github.GenericCommentEvent.User e)
      <> github.User.Login (github.GenericCommentEvent.IssueAuthor e)
   /\ In (github.User.Login (github.GenericCommentEvent.User e))
        (map github.User.Login (github.GenericCommentEvent.Assignees e))
   /\ skipCollaborators no_skip "kubernetes" "test-infra" = false
   /\ handle (imports := fake_imports) no_skip e = handle_label e true)
  /\ (let e := comment_event "/lgtm" "dave" "alice" ["carol"; "bob"] in
      let '(r, w', t) :=
        run fake_client (handle (imports := fake_imports) no_skip e) (world [])
      in
      existsb is_AssignIssue t = true
      /\ ~ In (github.User.Login (github.GenericCommentEvent.User e))
             (map github.User.Login (github.GenericCommentEvent.Assignees e))).
Proof.
  split.
  - intros e.
    assert (Hne : github.User.Login (github.GenericCommentEvent.User e)
                  <> github.User.Login (github.GenericCommentEvent.IssueAuthor e))
      by discriminate.
    assert (Hin : In (github.User.Login (github.GenericCommentEvent.User e))
                    (map github.User.Login
                       (github.GenericCommentEvent.Assignees e)))
      by (right; left; reflexivity).
    repeat (split; [first [reflexivity | assumption]|]).
    apply (proj1 (@assignee_is_authorized fake_imports fake fake_client no_skip
                    e (world [])) true); first [reflexivity | assumption].
  - intros e.
    pose proof (proj2 (@assignee_is_authorized fake_imports fake fake_client
                         no_skip e (world []))) as H.
    at_run. split; [reflexivity | apply H; reflexivity].
Defined.

(** New commits on a merged and on an open labelled pull request. *)
Lemma handlePullRequest_cases_witness :
  (let pe := sync_event true "synchronize" in
   github.PullRequest.Merged (github.PullRequestEvent.PullRequest pe) = true
   /\ run fake_client (handlePullRequest pe) (world ["lgtm"])
      = (None, world ["lgtm"], []))
  /\ (let pe := sync_event false "synchronize" in
      github.PullRequest.Merged (github.PullRequestEvent.PullRequest pe) = false
      /\ github.PullRequestEvent.Action pe = github.PullRequestActionSynchronize
      /\ let '(r, w', t) :=
           run fake_client (handlePullRequest pe) (world ["lgtm"]) in
         count is_RemoveLabel t = 1
         /\ calls t
            = [Ev (RemoveLabel "kubernetes" "test-infra" 5 lgtmLabel) None;
               Ev (CreateComment "kubernetes" "test-infra" 5 removeLGTMLabelNoti)
                  r]).
Proof.
  split.
  - intros pe. split; [reflexivity|].
    pose proof (handlePullRequest_cases fake_client pe (world ["lgtm"])) as H.
    cbv zeta in H.
    destruct (run fake_client (handlePullRequest pe) (world ["lgtm"]))
      as [[r w'] t].
    destruct H as [H _]. destruct (H (or_introl eq_refl)) as (-> & -> & ->).
    reflexivity.
  - intros pe. split; [reflexivity|]. split; [reflexivity|].
    pose proof (handlePullRequest_cases fake_client pe (world ["lgtm"])) as H.
    cbv zeta in H. at_run.
    destruct H as [_ H]. destruct (H eq_refl eq_refl) as (x & Hc & Hx).
    split; [exact Hc | reflexivity].
Defined.

(** Approve without the label, cancel with it, approve with it. *)
Lemma label_reconciliation_witness :
  (let e := comment_event "/lgtm" "bob" "alice" ["bob"] in
   let '(r, w', t) :=
     run fake_client (handle (imports := fake_imports) no_skip e) (world []) in
   count is_AddLabel t = 1
   /\ observed_label t = false
   /\ wantLGTM (github.GenericCommentEvent.Body e) = Some true)
  /\ (let e := comment_event "/lgtm cancel" "bob" "alice" ["bob"] in
      let '(r, w', t) :=
        run fake_client (handle (imports := fake_imports) no_skip e)
          (world ["lgtm"]) in
      count is_RemoveLabel t = 1
      /\ observed_label t = true
      /\ wantLGTM (github.GenericCommentEvent.Body e) = Some false)
  /\ (let e := comment_event "/lgtm" "bob" "alice" ["bob"] in
      let '(r, w', t) :=
        run fake_client (handle (imports := fake_imports) no_skip e)
          (world ["lgtm"]) in
      labels_fetched t <> None
      /\ wantLGTM (github.GenericCommentEvent.Body e) = Some (observed_label t)
      /\ count is_AddLabel t = 0 /\ count is_RemoveLabel t = 0 /\ r = None).
Proof.
  split; [|split].
  - intros e.
    pose proof (@label_reconciliation fake_imports fake fake_client no_skip e
                  (world [])) as H.
    at_run. destruct H as (_ & H & _).
    split; [reflexivity | apply H; reflexivity].
  - intros e.
    pose proof (@label_reconciliation fake_imports fake fake_client no_skip e
                  (world ["lgtm"])) as H.
    at_run. destruct H as (_ & _ & H & _).
    split; [reflexivity | apply H; reflexivity].
  - intros e.
    pose proof (@label_reconciliation fake_imports fake fake_client no_skip e
                  (world ["lgtm"])) as H.
    at_run. destruct H as (_ & _ & _ & H).
    split; [discriminate|]. split; [reflexivity|].
    apply H; [discriminate | reflexivity].
Defined.

(** C7 as stated fails: the labels that come with the error are read,
    and with the label among them an approve command adds nothing. *)
Lemma labels_come_with_error :
  ~ (forall (gc : client unit) e,
       let '(r, w', t) :=
         run gc (handle (imports := fake_imports) no_skip e) tt in
       forall labels err,
         labels_fetched t = Some (labels, Some err) ->
         wantLGTM (github.GenericCommentEvent.Body e) = Some true ->
         observed_label t = false /\ count is_AddLabel t = 1).
Proof.
  intros H.
  specialize (H (answering labels_with_error)
                (comment_event "/lgtm" "bob" "alice" ["bob"])).
  vm_compute in H. destruct (H _ _ eq_refl eq_refl) as [H1 _].
  discriminate H1.
Qed.

(** The pull request has the label, the fetch fails and returns no
    label, the label is added again. *)
Lemma label_fetch_failure_witness :
  let e := comment_event "/lgtm" "bob" "alice" ["bob"] in
  let err := ErrorString "status code 502" in
  fake_labels (world_without_fetch ["lgtm"]) = ["lgtm"]
  /\ wantLGTM (github.GenericCommentEvent.Body e) = Some true
  /\ let '(r, w', t) :=
       run fake_client (handle (imports := fake_imports) no_skip e)
         (world_without_fetch ["lgtm"]) in
     labels_fetched t = Some ([], Some err)
     /\ hasLabel [] = false
     /\ In (Ev (Log ErrorLevel (Some err)
                  "Failed to get the labels on %s/%s#%d."
                  [ArgString "kubernetes"; ArgString "test-infra"; ArgInt 5])
              tt) t
     /\ observed_label t = false
     /\ count is_AddLabel t = 1.
Proof.
  intros e err. split; [reflexivity|]. split; [reflexivity|].
  pose proof (@label_fetch_failure fake_imports fake fake_client no_skip e
                (world_without_fetch ["lgtm"])) as H.
  cbv zeta in H. at_run.
  destruct (H [] err eq_refl) as (Hlog & Hobs & Hadd & _).
  split; [reflexivity|]. split; [reflexivity|]. split; [exact Hlog|].
  split; [exact Hobs|].
  apply Hadd; reflexivity.
Defined.

(** An assignee who is not the author approves on a repository in the
    skip list: the owners are looked up all the same. *)
Lemma owners_authorization_witness :
  let e := comment_event "/lgtm" "carol" "alice" ["carol"] in
  considered e = true
  /\ wantLGTM (github.GenericCommentEvent.Body e) = Some true
  /\ github.User.Login (github.GenericCommentEvent.User e)
     <> github.User.Login (github.GenericCommentEvent.IssueAuthor e)
  /\ skipCollaborators skip_kubernetes "kubernetes" "test-infra" = true
  /\ isAssignee e = true
  /\ let '(r, w', t) :=
       run fake_client (handle (imports := fake_imports) skip_kubernetes e)
         (world []) in
     exists p t1,
       calls t = Ev (GetPullRequest "kubernetes" "test-infra" 5) p :: t1.
Proof.
  intros e.
  assert (Hne : github.User.Login (github.GenericCommentEvent.User e)
                <> github.User.Login (github.GenericCommentEvent.IssueAuthor e))
    by discriminate.
  split; [reflexivity|]. split; [reflexivity|]. split; [exact Hne|].
  split; [reflexivity|]. split; [reflexivity|].
  pose proof (proj2 (proj2 (@owners_authorization fake_imports fake
                              fake_client skip_kubernetes e (world [])))
                true eq_refl eq_refl Hne eq_refl) as H.
  cbv zeta in H.
  destruct (run fake_client (handle (imports := fake_imports) skip_kubernetes e)
              (world [])) as [[r w'] t].
  destruct H as (p & t1 & Hc & _). exists p, t1. exact Hc.
Defined.

(** C5 as stated fails: an assignee whose login differs in case only is
    not taken as an assignee. *)
Lemma assignee_test_is_exact :
  ~ (forall e, isAssignee e = isAssignee_normalized (imports := fake_imports) e).
Proof.
  intros H. specialize (H (comment_event "/lgtm" "alice" "bob" ["Alice"])).
  vm_compute in H. discriminate H.
Qed.

(** An owner whose login is written in another case is let through. *)
Lemma login_comparisons_witness :
  let e := comment_event "/lgtm" "Alice" "dave" [] in
  let '(r, w', t) :=
    run fake_client (handle (imports := fake_imports) skip_kubernetes e)
      (world []) in
  owners_loaded t = Some (Ok test_owners)
  /\ changes_fetched t = Some (Ok test_changes)
  /\ labels_fetched t <> None
  /\ lower_string "Alice"
     ∈ owners_of test_owners
         (map github.PullRequestChange.Filename test_changes).
Proof.
  intros e.
  pose proof (proj2 (proj2 (@login_comparisons fake_imports fake fake_client
                              skip_kubernetes e (world [])))) as H.
  at_run.
  split; [reflexivity|]. split; [reflexivity|]. split; [discriminate|].
  apply (H test_owners test_changes eq_refl eq_refl). discriminate.
Defined.

(** ** The further theorems at concrete inputs *)

(** The run is evaluated with the answers of the client left as they are
    named. *)
Ltac at_answers :=
  match goal with
  | |- context [run ?gc ?p ?w] =>
      let res := fresh "res" in
      let E := fresh "E" in
      remember (run gc p w) as res eqn:E;
      lazy -[test_owners test_pr test_changes test_comments timeout] in E;
      subst res; cbv beta iota in *
  end.

(** A comment on an issue. *)
Lemma guard_turns_away_witness :
  let e :=
    github.GenericCommentEvent.mk false github.GenericCommentActionCreated
      "/lgtm" "https://github.com/kubernetes/test-infra/issues/7" 7 test_repo
      (github.User.mk "bob") (github.User.mk "alice") [] "open" in
  github.GenericCommentEvent.IsPR e = false
  /\ run (answering all_well) (handle (imports := fake_imports) no_skip e) tt
     = (None, tt, []).
Proof.
  intros e. split; [reflexivity|].
  apply (@guard_turns_away fake_imports unit (answering all_well) no_skip e tt).
  left. reflexivity.
Defined.

(** A commenter who is not assigned approves and is assigned. *)
Lemma assignment_success_witness :
  let e := comment_event "/lgtm" "dave" "alice" ["bob"] in
  let '(r, w', t) :=
    run (answering all_well) (handle (imports := fake_imports) no_skip e) tt in
  assign_result t = Some None
  /\ exists x t',
      calls t
      = Ev (AssignIssue "kubernetes" "test-infra" 5 ["dave"]) None
        :: Ev (GetIssueLabels "kubernetes" "test-infra" 5) x :: t'.
Proof.
  intros e.
  pose proof (@assignment_success fake_imports unit (answering all_well)
                no_skip e tt) as H.
  cbv zeta in H. at_answers. split; [reflexivity | apply H; reflexivity].
Defined.

(** The assignment fails, and so does the collaborator check. *)
Lemma assignment_failure_witness :
  let e := comment_event "/lgtm" "dave" "alice" ["bob"] in
  let '(r, w', t) :=
    run (answering all_fail) (handle (imports := fake_imports) no_skip e) tt in
  assign_result t = Some (Some timeout)
  /\ r = Some timeout
  /\ labels_fetched t = None
  /\ count is_AddLabel t = 0 /\ count is_RemoveLabel t = 0.
Proof.
  intros e.
  pose proof (@assignment_failure fake_imports unit (answering all_fail)
                no_skip e tt) as H.
  cbv zeta in H. at_answers.
  destruct (H timeout eq_refl) as (_ & H1 & H2 & H3).
  split; [reflexivity|]. split; [reflexivity|]. auto.
Defined.

(** The pull request, the owners, the changed files fail in turn. *)
Lemma owners_lookup_errors_witness :
  let e := comment_event "/lgtm" "dave" "alice" [] in
  (let '(r, w', t) :=
     run (answering all_fail) (handle (imports := fake_imports) skip_kubernetes e)
       tt in
   pr_fetched t = Some (Err timeout) /\ r = Some timeout)
  /\ (let '(r, w', t) :=
        run (answering owners_fail)
          (handle (imports := fake_imports) skip_kubernetes e) tt in
      owners_loaded t = Some (Err timeout) /\ r = Some timeout)
  /\ (let '(r, w', t) :=
        run (answering changes_fail)
          (handle (imports := fake_imports) skip_kubernetes e) tt in
      changes_fetched t = Some (Err timeout)
      /\ r = Some (Errorf "cannot get PR changes for %s/%s#%d"
                     [ArgString "kubernetes"; ArgString "test-infra"; ArgInt 5])).
Proof.
  intros e. split; [|split].
  - pose proof (@owners_lookup_errors fake_imports unit (answering all_fail)
                  skip_kubernetes e tt) as H.
    cbv zeta in H. at_answers. destruct H as (H & _ & _).
    split; [reflexivity | apply (H timeout eq_refl)].
  - pose proof (@owners_lookup_errors fake_imports unit (answering owners_fail)
                  skip_kubernetes e tt) as H.
    cbv zeta in H. at_answers. destruct H as (_ & H & _).
    split; [reflexivity | apply (H timeout eq_refl)].
  - pose proof (@owners_lookup_errors fake_imports unit (answering changes_fail)
                  skip_kubernetes e tt) as H.
    cbv zeta in H. at_answers. destruct H as (_ & _ & H).
    split; [reflexivity | apply (H timeout eq_refl)].
Defined.

(** The organisation listed, and nothing listed. *)
Lemma authorization_by_configuration_witness :
  let e := comment_event "/lgtm" "dave" "alice" [] in
  (In "kubernetes"
     (plugins.Owners.SkipCollaborators
        (plugins.Configuration.Owners skip_kubernetes))
   /\ let '(r, w', t) :=
        run (answering no_changes)
          (handle (imports := fake_imports) skip_kubernetes e) tt in
      assign_result t = None /\ collaborator_result t = None)
  /\ (let '(r, w', t) :=
        run (answering all_well) (handle (imports := fake_imports) no_skip e) tt
      in
      pr_fetched t = None /\ owners_loaded t = None
      /\ changes_fetched t = None).
Proof.
  intros e. split.
  - split; [left; reflexivity|].
    pose proof (@authorization_by_configuration fake_imports unit
                  (answering no_changes) skip_kubernetes e tt) as H.
    cbv zeta in H. at_answers. destruct H as [H _].
    apply H. left. left. reflexivity.
  - pose proof (@authorization_by_configuration fake_imports unit
                  (answering all_well) no_skip e tt) as H.
    cbv zeta in H. at_answers. destruct H as [_ H].
    apply H; intros [].
Defined.

(** An owner of the repository approves a pull request without changed
    files. *)
Lemma no_changed_files_denies_witness :
  let e := comment_event "/lgtm" "alice" "dave" [] in
  let '(r, w', t) :=
    run (answering no_changes)
      (handle (imports := fake_imports) skip_kubernetes e) tt in
  owners_loaded t = Some (Ok test_owners)
  /\ changes_fetched t = Some (Ok [])
  /\ labels_fetched t = None.
Proof.
  intros e.
  pose proof (@no_changed_files_denies fake_imports unit (answering no_changes)
                skip_kubernetes e tt) as H.
  at_answers. split; [reflexivity|]. split; [reflexivity|].
  apply (H test_owners eq_refl eq_refl).
Defined.

(** The author approves their own pull request. *)
Lemma one_reply_at_most_witness :
  let e := comment_event "/lgtm" "alice" "alice" [] in
  let '(r, w', t) :=
    run (answering all_well) (handle (imports := fake_imports) no_skip e) tt in
  count is_CreateComment t = 1
  /\ labels_fetched t = None
  /\ existsb cleanup_call t = false.
Proof.
  intros e.
  pose proof (@one_reply_at_most fake_imports unit (answering all_well)
                no_skip e tt) as H.
  at_answers. destruct H as [_ H]. destruct (H eq_refl) as (_ & H1 & _ & _ & H2).
  split; [reflexivity|]. auto.
Defined.

(** A commenter is assigned and the label is added. *)
Lemma authorization_before_label_witness :
  let e := comment_event "/lgtm" "dave" "alice" [] in
  let '(r, w', t) :=
    run (answering all_well) (handle (imports := fake_imports) no_skip e) tt in
  exists t1 t2,
    t = t1 ++ t2 /\ t2 <> [] /\ forallb authorization_event t1 = true
    /\ forallb label_event t2 = true /\ count is_CreateComment t1 = 0.
Proof.
  intros e.
  pose proof (@authorization_before_label fake_imports unit
                (answering all_well) no_skip e tt) as H.
  at_answers. destruct H as (t1 & t2 & Ht & H1 & H2 & H3).
  exists t1, t2.
  assert (Hne : t2 <> []).
  { intros ->. rewrite app_nil_r in Ht. subst t1. discriminate H1. }
  split; [exact Ht|]. split; [exact Hne|]. split; [exact H1|].
  split; [exact H2 | exact (H3 Hne)].
Defined.

(** Adding the label fails. *)
Lemma error_from_last_call_witness :
  let e := comment_event "/lgtm" "bob" "alice" ["bob"] in
  let '(r, w', t) :=
    run (answering all_fail) (handle (imports := fake_imports) no_skip e) tt in
  r <> None /\ exists t0 ev, calls t = t0 ++ [ev] /\ failed ev = true.
Proof.
  intros e.
  pose proof (@error_from_last_call fake_imports unit (answering all_fail)
                no_skip e tt) as H.
  at_answers. split; [discriminate | apply H; discriminate].
Defined.

(** Adding the label fails; adding succeeds and every deletion fails. *)
Lemma add_label_result_witness :
  let e := comment_event "/lgtm" "bob" "alice" ["bob"] in
  (let '(r, w', t) :=
     run (answering all_fail) (handle (imports := fake_imports) no_skip e) tt in
   add_result t = Some (Some timeout)
   /\ r = Some timeout /\ existsb cleanup_call t = false)
  /\ (let '(r, w', t) :=
        run (answering deletions_fail)
          (handle (imports := fake_imports) no_skip e) tt in
      add_result t = Some None /\ r = None).
Proof.
  intros e. split.
  - pose proof (@add_label_result fake_imports unit (answering all_fail)
                  no_skip e tt) as H.
    at_answers. split; [reflexivity | apply (H (Some timeout) eq_refl)].
  - pose proof (@add_label_result fake_imports unit (answering deletions_fail)
                  no_skip e tt) as H.
    at_answers. split; [reflexivity | apply (H None eq_refl)].
Defined.

(** The label is gone by the time it is removed. *)
Lemma remove_label_result_witness :
  let e := comment_event "/lgtm cancel" "alice" "alice" [] in
  let '(r, w', t) :=
    run (answering label_race) (handle (imports := fake_imports) no_skip e) tt
  in
  remove_result t = Some (Some LabelNotFound) /\ r = Some LabelNotFound.
Proof.
  intros e.
  pose proof (@remove_label_result fake_imports unit (answering label_race)
                no_skip e tt) as H.
  cbv zeta in H. at_answers.
  split; [reflexivity | apply (H (Some LabelNotFound) eq_refl)].
Defined.

(** Two notifications among three comments; the name of the bot and the
    comments come with an error, and the deletions fail. *)
Lemma stale_notifications_deleted_witness :
  let e := comment_event "/lgtm" "bob" "alice" ["bob"] in
  let '(r, w', t) :=
    run (answering deletions_fail) (handle (imports := fake_imports) no_skip e)
      tt in
  existsb cleanup_call t = true
  /\ add_result t = Some None
  /\ bot_named t = Some ("k8s-ci-robot", Some timeout)
  /\ comments_listed t = Some (test_comments, Some timeout)
  /\ deletions t
     = [("kubernetes", "test-infra", 11%Z); ("kubernetes", "test-infra", 13%Z)].
Proof.
  intros e.
  pose proof (@stale_notifications_deleted fake_imports unit
                (answering deletions_fail) no_skip e tt) as H.
  cbv zeta in H. at_answers. destruct H as (H1 & H2 & H3).
  split; [reflexivity|]. split; [apply H2; reflexivity|].
  split; [reflexivity|]. split; [reflexivity|].
  rewrite H1. reflexivity.
Defined.

(** A command after a line of text. *)
Lemma command_starts_line_witness :
  let body := "thanks" +:+ nl +:+ "/LGTM" in
  wantLGTM body <> None
  /\ exists l rest,
      In l (lines (list_ascii_of_string body)) /\ l = "/"%char :: rest.
Proof.
  intros body.
  assert (H : wantLGTM body <> None) by discriminate.
  split; [exact H | exact (command_starts_line body H)].
Defined.

(** The same files in another order and one of them twice. *)
Lemma loadReviewers_compose_witness :
  let fs1 := ["prow/a.go"; "README.md"] in
  let fs2 := ["README.md"; "prow/a.go"; "README.md"] in
  (forall f, In f fs1 <-> In f fs2)
  /\ loadReviewers test_owners fs1 = loadReviewers test_owners fs2.
Proof.
  intros fs1 fs2.
  assert (H : forall f, In f fs1 <-> In f fs2).
  { intros f. simpl. tauto. }
  split; [exact H|].
  apply (proj1 (proj2 (loadReviewers_compose test_owners fs1 fs2)) H).
Defined.
